(** * KTU result proxy (server/server.js): retry loop, fallback and cache

    A shallow embedding of [fetchWithRetries], [playwrightFetch],
    [fetchResultForRoll] and the [/api/result] handler.  The asynchronous
    code is written in a small state-and-exception monad over an explicit
    [World]; everything the program does not decide itself (upstream
    answers, [Math.random], the browser, the passing of time) is read
    from an oracle [Env]. *)

From Stdlib Require Import ZArith List String Ascii Bool Lia.
From stdpp Require Import base option gmap strings.

Local Open Scope string_scope.
Local Open Scope Z_scope.

(** ** JavaScript numbers

    The numbers the program computes with are IEEE doubles.  Integers are
    kept in [Z] and rounded to a 53-bit significand where JavaScript rounds;
    the value of [Math.random()] is a dyadic fraction.  Overflow to
    [Infinity] (beyond 2^1024) is outside this model, and so is [NaN]: the
    configuration is taken to parse to integers. *)

Module JsNumber.

(** [dy_num / 2 ^ dy_scale]. *)
Record Dyadic := mkDyadic { dy_num : Z; dy_scale : Z }.


(** [n / 2 ^ s] rounded to the nearest integer, ties to even. *)
Definition round_nearest_even (n s : Z) : Z :=
  let q := n / 2 ^ s in
  let r := n mod 2 ^ s in
  if 2 * r <? 2 ^ s then q
  else if 2 ^ s <? 2 * r then q + 1
  else if Z.even q then q else q + 1.

(** Number of low bits a 53-bit significand cannot hold. *)
Definition excess_bits (n : Z) : Z := Z.log2 (Z.abs n) + 1 - 53.

(** Rounding of an exact dyadic result to a double. *)
Definition fl (x : Dyadic) : Dyadic :=
  let drop := excess_bits (dy_num x) in
  if drop <=? 0 then x
  else mkDyadic (round_nearest_even (dy_num x) drop) (dy_scale x - drop).

(** Rounding of an exact integer result to a double. *)
Definition fl_int (n : Z) : Z :=
  let drop := excess_bits n in
  if drop <=? 0 then n else round_nearest_even n drop * 2 ^ drop.

(** [x * c] for an integer constant [c]. *)
Definition times (x : Dyadic) (c : Z) : Dyadic :=
  fl (mkDyadic (dy_num x * c) (dy_scale x)).

(** [Math.round]: the nearest integer, ties towards +infinity. *)
Definition Math_round (x : Dyadic) : Z :=
  if dy_scale x <=? 0 then dy_num x * 2 ^ (- dy_scale x)
  else (2 * dy_num x + 2 ^ dy_scale x) / 2 ^ (dy_scale x + 1).

(** [Math.pow(2, k)] for an integer [k >= 0], exact as long as it is
    finite ([k < 1024]); the loop hands a delay beyond that to the log
    and to [setTimeout] only. *)
Definition Math_pow2 (k : Z) : Z := 2 ^ k.

End JsNumber.
Export JsNumber.

(** ** Values exchanged with the outside *)

(** A thrown JavaScript error: [String(err)] needs its name, the retry
    loop reads [err.response.status]. *)
Record JsError := mkError {
  err_name : string;
  err_message : string;
  err_response : option Z
}.

Definition Headers := list (string * string).

(** A number as a response body can hold it: a finite double, [-0], or
    an infinity (JSON text such as [1e999] parses to [Infinity]). *)
Inductive JsNum :=
| NFinite (x : Dyadic)
| NNegZero
| NInfinity (negative : bool).

(** The values [resp.data] can be: axios parses a body that is JSON text
    and leaves any other body as the string it is. *)
#[warnings="-register-all"] Inductive JsValue :=
| JNull
| JBool (b : bool)
| JNumber (n : JsNum)
| JString (s : string)
| JArray (items : list JsValue)
| JObject (fields : list (string * JsValue)).

(** What [axios.get] resolves to, and what [playwrightFetch] returns:
    an object with [data] and (possibly) [headers]. *)
Record Response := mkResponse {
  resp_data : JsValue;
  resp_headers : option Headers
}.

Inductive Settled := Resolved (r : Response) | Rejected (e : JsError).

(** One use of the browser: which of its steps fail. *)
Record BrowserRun := mkBrowserRun {
  pw_require : option JsError;
  pw_launch : option JsError;
  pw_newPage : option JsError;
  pw_goto : option JsError;
  pw_content : string + JsError;
  pw_close : option JsError
}.

(** The object [fetchResultForRoll] resolves to; an absent field is [None]. *)
Record Result := mkResult {
  ok : bool;
  fromCache : option bool;
  data : option JsValue;
  headers : option Headers;
  error : option string
}.

(** JavaScript truthiness: of a string, of any value, and of a value
    that may be [undefined]. *)
Definition truthy (s : string) : bool := negb (String.eqb s "").

Definition number_truthy (n : JsNum) : bool :=
  match n with
  | NFinite x => negb (dy_num x =? 0)
  | NNegZero => false
  | NInfinity _ => true
  end.

Definition js_truthy (v : JsValue) : bool :=
  match v with
  | JNull => false
  | JBool b => b
  | JNumber n => number_truthy n
  | JString s => truthy s
  | JArray _ | JObject _ => true
  end.

Definition truthy_opt (o : option JsValue) : bool :=
  match o with Some v => js_truthy v | None => false end.

(** [Error.prototype.toString]. *)
Definition Error_toString (e : JsError) : string :=
  if String.eqb (err_name e) "" then err_message e
  else if String.eqb (err_message e) "" then err_name e
  else err_name e ++ ": " ++ err_message e.

(** [err.message || String(err)]. *)
Definition message_or_string (e : JsError) : string :=
  if truthy (err_message e) then err_message e else Error_toString e.

(** A JavaScript string is modelled by its bytes in UTF-8, generalised
    to hold what UTF-8 proper cannot: a surrogate that is not half of a
    pair is the three bytes [ED], [A0..BF], [80..BF] of its code unit (a
    pair is the four bytes of its character, as in UTF-8). *)

(** Does the string hold a surrogate that is not half of a pair? *)
Fixpoint lone_surrogate (s : string) : bool :=
  match s with
  | String c (String d _ as rest) =>
      ((nat_of_ascii c =? 237) && (160 <=? nat_of_ascii d)
       && (nat_of_ascii d <=? 191))%nat
      || lone_surrogate rest
  | _ => false
  end.

(** What [encodeURIComponent] throws on such a string. *)
Definition uri_malformed : JsError := mkError "URIError" "URI malformed" None.

(** The characters [encodeURIComponent] leaves as they are. *)
Definition unreserved (c : ascii) : bool :=
  let n := Z.of_nat (nat_of_ascii c) in
  ((48 <=? n) && (n <=? 57)) || ((65 <=? n) && (n <=? 90)) ||
  ((97 <=? n) && (n <=? 122)) ||
  existsb (Ascii.eqb c) (list_ascii_of_string "-_.!~*'()").

Definition hex_digit (n : nat) : ascii :=
  nth n (list_ascii_of_string "0123456789ABCDEF") "0"%char.

(** Every other byte of the UTF-8 encoding becomes [%XX]. *)
Fixpoint percent_encode (s : string) : string :=
  match s with
  | EmptyString => EmptyString
  | String c rest =>
      if unreserved c then String c (percent_encode rest)
      else
        let n := nat_of_ascii c in
        String "%"%char
          (String (hex_digit (n / 16)) (String (hex_digit (n mod 16))
             (percent_encode rest)))
  end.

(** [encodeURIComponent]: [None] when it throws [URIError], which it
    does on a string that has no UTF-8 encoding. *)
Definition encodeURIComponent (s : string) : option string :=
  if lone_surrogate s then None else Some (percent_encode s).

(** The url of a roll; evaluating the template throws what
    [encodeURIComponent] throws. *)
Definition KTU_FETCH_URL_TEMPLATE (roll : string) : option string :=
  match encodeURIComponent roll with
  | Some encoded => Some ("https://ktu.edu.in/results?roll=" ++ encoded)
  | None => None
  end.

Definition cacheKey_of (roll : string) : string := "ktu:roll:" ++ roll.

(** ** The expiring cache *)

Module ExpiringCache.

(** Modelled from the spec: the cache is an instance of the node-cache
    package, which is not among the sources.  An entry is
    [{value, storedAt, ttl}] and is expired when [now >= storedAt + ttl];
    [get] treats an expired entry as absent and evicts it, [set]
    overwrites and restarts the age.  Times are in milliseconds; the
    values are what the code stores, [resp.data]. *)
Record CacheEntry := mkEntry {
  value : JsValue;
  storedAt : Z;
  ttl : Z
}.

(** Modelled from the spec: an entry is expired when
    [now >= storedAt + ttl]. *)
Definition expired (now : Z) (e : CacheEntry) : bool :=
  storedAt e + ttl e <=? now.

(** Modelled from the spec: [get(key) -> value | absent], with lazy
    deletion of an expired entry on read. *)
Definition get (now : Z) (key : string) (c : gmap string CacheEntry)
  : option JsValue * gmap string CacheEntry :=
  match c !! key with
  | Some e => if expired now e then (None, delete key c) else (Some (value e), c)
  | None => (None, c)
  end.

(** Modelled from the spec: [set] overwrites any existing entry for the
    key and resets its age. *)
Definition set (now ttl : Z) (key : string) (v : JsValue)
    (c : gmap string CacheEntry)
  : gmap string CacheEntry :=
  <[ key := mkEntry v now ttl ]> c.

(** What a [get] at time [now] would answer, without the eviction. *)
Definition peek (now : Z) (key : string) (c : gmap string CacheEntry)
  : option JsValue :=
  fst (get now key c).

End ExpiringCache.


(** ** Configuration, environment and world *)

(** The constants read from [process.env] at start-up, for settings
    that [parseInt] reads as integers. *)
Record Config := mkConfig {
  MAX_CONCURRENT : Z;
  REQUEST_TIMEOUT : Z;
  MAX_RETRIES : Z;
  BACKOFF_BASE : Z;
  CACHE_TTL : Z;
  PLAYWRIGHT_FALLBACK : bool
}.

(** The defaults of the source. *)
Definition default_config : Config := mkConfig 4 8000 5 300 300 false.

(** What the outside answers: the [i]-th [axios.get], the [i]-th
    [Math.random()], the [i]-th use of the browser, and the time that
    passes at the [i]-th suspension ([await]). *)
Record Env := mkEnv {
  upstream : nat -> Settled;
  random : nat -> Dyadic;
  browser : nat -> BrowserRun;
  elapse : nat -> N
}.

Inductive Event :=
| EvCacheGet (key : string)
| EvCacheSet (key : string) (v : JsValue)
| EvGateEnter
| EvGateExit
| EvAxiosGet (url : string) (timeout : Z)
| EvWarnRetry (attempt wait : Z)
| EvSleep (ms : Z)
| EvWarnDirectFailed (roll msg : string)
| EvPlaywright (url : string)
| EvBrowserClose
| EvErrorFallbackFailed (msg : string).

(** The process-wide state: the shared cache, the clock, how many
    answers of each oracle have been consumed, and what has been done so
    far (most recent event first). *)
Record World := mkWorld {
  cache : gmap string ExpiringCache.CacheEntry;
  now : Z;
  axios_calls : nat;
  random_calls : nat;
  browser_calls : nat;
  awaits : nat;
  log : list Event
}.

Definition initial_world : World := mkWorld ∅ 0 0 0 0 0 [].

Definition set_cache (c : gmap string ExpiringCache.CacheEntry) (w : World) : World :=
  mkWorld c (now w) (axios_calls w) (random_calls w) (browser_calls w)
          (awaits w) (log w).

Definition emit (e : Event) (w : World) : World :=
  mkWorld (cache w) (now w) (axios_calls w) (random_calls w) (browser_calls w)
          (awaits w) (e :: log w).

Definition next_axios (w : World) : World :=
  mkWorld (cache w) (now w) (S (axios_calls w)) (random_calls w)
          (browser_calls w) (awaits w) (log w).

Definition next_random (w : World) : World :=
  mkWorld (cache w) (now w) (axios_calls w) (S (random_calls w))
          (browser_calls w) (awaits w) (log w).

Definition next_browser (w : World) : World :=
  mkWorld (cache w) (now w) (axios_calls w) (random_calls w)
          (S (browser_calls w)) (awaits w) (log w).

(** A suspension: the clock moves on by what the environment says. *)
Definition suspend (env : Env) (w : World) : World :=
  mkWorld (cache w) (now w + Z.of_N (elapse env (awaits w))) (axios_calls w)
          (random_calls w) (browser_calls w) (S (awaits w)) (log w).

(** The events of the log that satisfy [p]. *)
Definition count_events (p : Event -> bool) (l : list Event) : nat :=
  length (List.filter p l).

Definition is_attempt (e : Event) : bool :=
  match e with EvAxiosGet _ _ => true | _ => false end.

Definition is_sleep (e : Event) : bool :=
  match e with EvSleep _ => true | _ => false end.

Definition is_cache_write (e : Event) : bool :=
  match e with EvCacheSet _ _ => true | _ => false end.

Definition is_gate (e : Event) : bool :=
  match e with EvGateEnter | EvGateExit => true | _ => false end.

Definition is_playwright (e : Event) : bool :=
  match e with EvPlaywright _ => true | _ => false end.

(** ** The monad of asynchronous code *)

(** How a computation ends: it returns, it throws, or the model's fuel
    for the [while (true)] loop ran out. *)
Inductive Completion (A : Type) :=
| Returned (a : A)
| Threw (e : JsError)
| OutOfFuel.
Arguments Returned {A} a.
Arguments Threw {A} e.
Arguments OutOfFuel {A}.

Definition M (A : Type) : Type := World -> Completion A * World.

Definition ret {A} (a : A) : M A := fun w => (Returned a, w).

Definition throw {A} (e : JsError) : M A := fun w => (Threw e, w).

Definition out_of_fuel {A} : M A := fun w => (OutOfFuel, w).

Definition bind {A B} (m : M A) (k : A -> M B) : M B :=
  fun w =>
    match m w with
    | (Returned a, w') => k a w'
    | (Threw e, w') => (Threw e, w')
    | (OutOfFuel, w') => (OutOfFuel, w')
    end.

(** [try { m } catch (err) { h err }]. *)
Definition try_catch {A} (m : M A) (h : JsError -> M A) : M A :=
  fun w =>
    match m w with
    | (Threw e, w') => h e w'
    | other => other
    end.

(** [try { m } finally { f }]: a throwing [f] replaces the outcome of [m]. *)
Definition try_finally {A} (m : M A) (f : M unit) : M A :=
  fun w =>
    match m w with
    | (OutOfFuel, w') => (OutOfFuel, w')
    | (c, w') =>
        match f w' with
        | (Returned _, w'') => (c, w'')
        | (Threw e, w'') => (Threw e, w'')
        | (OutOfFuel, w'') => (OutOfFuel, w'')
        end
    end.

Notation "'do' x <- m ; k" := (bind m (fun x => k))
  (at level 10, x name, m at level 100, k at level 200).

Definition tell (e : Event) : M unit := fun w => (Returned tt, emit e w).

(** ** The server *)

Section Server.

Variable cfg : Config.
Variable env : Env.

(** [await sleep(ms)]. *)
Definition sleep (ms : Z) : M unit :=
  fun w => (Returned tt, suspend env (emit (EvSleep ms) w)).

(** [await axios.get(url, {timeout: REQUEST_TIMEOUT, ...})]: the promise
    resolves with the response or rejects with the error. *)
Definition axios_get (url : string) : M Response :=
  fun w =>
    let w' := suspend env (emit (EvAxiosGet url (REQUEST_TIMEOUT cfg))
                                (next_axios w)) in
    match upstream env (axios_calls w) with
    | Resolved res => (Returned res, w')
    | Rejected err => (Threw err, w')
    end.

(** [Math.random()]. *)
Definition Math_random : M Dyadic :=
  fun w => (Returned (random env (random_calls w)), next_random w).

(** [!err.response || [502, 503, 504].includes(status)]. *)
Definition isGateway (err : JsError) : bool :=
  match err_response err with
  | None => true
  | Some status => existsb (Z.eqb status) [502; 503; 504]
  end.

(** [Math.round(BACKOFF_BASE * Math.pow(2, attempt - 1))]. *)
Definition backoff_of (base attempt : Z) : Z :=
  fl_int (base * Math_pow2 (attempt - 1)).

(** [Math.round(Math.random() * 200)], for the drawn [x]. *)
Definition jitter_of (x : Dyadic) : Z := Math_round (times x 200).

(** [backoff + jitter]. *)
Definition wait_of (base attempt : Z) (x : Dyadic) : Z :=
  fl_int (backoff_of base attempt + jitter_of x).

(** [attempt++]: the counter is a double, so the sum is rounded to one;
    at 2^53 the counter stops growing. *)
Definition next_attempt (attempt : Z) : Z := fl_int (attempt + 1).

(** The [while (true)] loop of [fetchWithRetries], entered with the
    current value of [attempt]. *)
Fixpoint retry_loop (fuel : nat) (url : string) (maxRetries attempt : Z)
  : M Response :=
  match fuel with
  | O => out_of_fuel
  | S fuel' =>
      try_catch
        (do res <- axios_get url;
         ret res)
        (fun err =>
           let attempt := next_attempt attempt in
           if negb (isGateway err) || (attempt >? maxRetries) then
             (* final fail *)
             throw err
           else
             (* exponential backoff w/ jitter *)
             do x <- Math_random;
             let wait := wait_of (BACKOFF_BASE cfg) attempt x in
             do _ <- tell (EvWarnRetry attempt wait);
             do _ <- sleep wait;
             retry_loop fuel' url maxRetries attempt)
  end.

Definition fetchWithRetries (fuel : nat) (url : string) (maxRetries : Z)
  : M Response :=
  retry_loop fuel url maxRetries 0.

(** A step of the browser that may throw; [await]ed ones suspend. *)
Definition browser_step (suspends : bool) (failure : option JsError) : M unit :=
  fun w =>
    let w' := if suspends then suspend env w else w in
    match failure with
    | Some e => (Threw e, w')
    | None => (Returned tt, w')
    end.

Definition playwright_marker : Headers := [("x-playwright-fallback", "1")].

Definition playwrightFetch (url : string) : M Response :=
  fun w =>
    let run := browser env (browser_calls w) in
    (do _ <- tell (EvPlaywright url);
     do _ <- browser_step false (pw_require run);
     do _ <- browser_step true (pw_launch run);
     try_finally
       (do _ <- browser_step true (pw_newPage run);
        do _ <- browser_step true (pw_goto run);
        do html <- (fun w1 =>
                      match pw_content run with
                      | inl html => (Returned html, suspend env w1)
                      | inr e => (Threw e, suspend env w1)
                      end);
        ret (mkResponse (JString html) (Some playwright_marker)))
       (do _ <- tell EvBrowserClose;
        browser_step true (pw_close run)))
      (next_browser w).

(** [cache.get(cacheKey)] and [cache.set(cacheKey, v)] on the shared
    cache, with [stdTTL = CACHE_TTL] seconds. *)
Definition cache_get (cacheKey : string) : M (option JsValue) :=
  fun w =>
    let '(v, c) := ExpiringCache.get (now w) cacheKey (cache w) in
    (Returned v, emit (EvCacheGet cacheKey) (set_cache c w)).

Definition cache_set (cacheKey : string) (v : JsValue) : M unit :=
  fun w =>
    (Returned tt,
     emit (EvCacheSet cacheKey v)
       (set_cache
          (ExpiringCache.set (now w) (CACHE_TTL cfg * 1000) cacheKey v (cache w))
          w)).

(** Modelled from the spec: the admission gate is an instance of the
    p-limit package, which is not among the sources.  [limit(task)] for a
    request that finds a free slot: the task runs after a suspension and
    the slot is given back however it ends. *)
Definition limit {A} (task : M A) : M A :=
  do _ <- (fun w => (Returned tt, suspend env (emit EvGateEnter w)));
  try_finally task (tell EvGateExit).

Definition served_from_cache (cached : JsValue) : Result :=
  mkResult true (Some true) (Some cached) None None.

Definition fetched (d : JsValue) (h : option Headers) : Result :=
  mkResult true (Some false) (Some d) (Some (default [] h)) None.

Definition failed (msg : string) : Result :=
  mkResult false None None None (Some msg).

(** [const url = KTU_FETCH_URL_TEMPLATE(roll)], outside every [try]. *)
Definition url_of (roll : string) : M string :=
  match KTU_FETCH_URL_TEMPLATE roll with
  | Some url => ret url
  | None => throw uri_malformed
  end.

(** The part of [fetchResultForRoll] before the gate: the cache check
    and, on a miss, the url.  It leaves the key and the url of the task
    to be queued. *)
Definition fetchResultForRoll_check (roll : string)
  : M (Result + string * string) :=
  let cacheKey := cacheKey_of roll in
  let miss := do url <- url_of roll; ret (inr (cacheKey, url)) in
  do cached <- cache_get cacheKey;
  match cached with
  | Some v => if js_truthy v then ret (inl (served_from_cache v)) else miss
  | None => miss
  end.

(** The function handed to [limit]. *)
Definition fetchResultForRoll_task (fuel : nat) (roll cacheKey url : string)
  : M Result :=
  try_catch
    (do resp <- fetchWithRetries fuel url (MAX_RETRIES cfg);
     do _ <- cache_set cacheKey (resp_data resp);
     ret (fetched (resp_data resp) (resp_headers resp)))
    (fun err =>
       do _ <- tell (EvWarnDirectFailed roll (message_or_string err));
       if PLAYWRIGHT_FALLBACK cfg then
         try_catch
           (do pwResp <- playwrightFetch url;
            do _ <- cache_set cacheKey (resp_data pwResp);
            ret (fetched (resp_data pwResp) (resp_headers pwResp)))
           (fun pwErr =>
              do _ <- tell (EvErrorFallbackFailed (message_or_string pwErr));
              ret (failed (message_or_string pwErr)))
       else
         ret (failed (message_or_string err))).

(** The rest of a request after its cache check. *)
Definition fetchResultForRoll_resume (fuel : nat) (roll : string)
    (checked : Result + string * string) : M Result :=
  match checked with
  | inl hit => ret hit
  | inr (cacheKey, url) => limit (fetchResultForRoll_task fuel roll cacheKey url)
  end.

Definition fetchResultForRoll (fuel : nat) (roll : string) : M Result :=
  do checked <- fetchResultForRoll_check roll;
  fetchResultForRoll_resume fuel roll checked.

(** Two requests for the same roll, the second arriving while the first
    is still in flight: both cache checks come before either task, and
    the second task starts when the first has ended (as it must when the
    gate has one slot). *)
Definition overlapping_requests (fuel : nat) (roll : string)
  : M (Result * Result) :=
  do first <- fetchResultForRoll_check roll;
  do second <- fetchResultForRoll_check roll;
  do r1 <- fetchResultForRoll_resume fuel roll first;
  do r2 <- fetchResultForRoll_resume fuel roll second;
  ret (r1, r2).

End Server.

(** The marker by which a result of the secondary strategy is told from
    one of the primary strategy. *)
Definition servedByFallback (r : Result) : bool :=
  match headers r with
  | Some h =>
      existsb (fun kv => String.eqb (fst kv) "x-playwright-fallback" &&
                         String.eqb (snd kv) "1") h
  | None => false
  end.

(** ** Worlds reached by the steps of the retry loop *)

(** After one [axios.get]. *)
Definition after_attempt (cfg : Config) (env : Env) (url : string) (w : World)
  : World :=
  suspend env (emit (EvAxiosGet url (REQUEST_TIMEOUT cfg)) (next_axios w)).

(** The wait computed for the failure that made [attempt] what it is,
    in world [w]. *)
Definition wait_in (cfg : Config) (env : Env) (attempt : Z) (w : World) : Z :=
  wait_of (BACKOFF_BASE cfg) attempt (random env (random_calls w)).

(** After the draw, the warning and the sleep of one back-off. *)
Definition after_backoff (cfg : Config) (env : Env) (attempt : Z) (w : World)
  : World :=
  suspend env
    (emit (EvSleep (wait_in cfg env attempt w))
       (emit (EvWarnRetry attempt (wait_in cfg env attempt w)) (next_random w))).

(** The events a retry loop can produce. *)
Definition is_retry_event (e : Event) : bool :=
  match e with
  | EvAxiosGet _ _ | EvWarnRetry _ _ | EvSleep _ => true
  | _ => false
  end.

(** The events [playwrightFetch] can produce. *)
Definition is_browser_event (e : Event) : bool :=
  match e with
  | EvPlaywright _ | EvBrowserClose => true
  | _ => false
  end.

(** ** What a run of the retry loop leaves behind *)

(** The loop touches neither the cache nor the browser, time does not go
    back, and the new events are those of the loop: one [EvAxiosGet] per
    upstream answer consumed, one [EvSleep] per random draw. *)
Definition retry_frame (w w' : World) : Prop :=
  cache w' = cache w /\
  browser_calls w' = browser_calls w /\
  now w <= now w' /\
  (axios_calls w <= axios_calls w')%nat /\
  (random_calls w <= random_calls w')%nat /\
  exists evs,
    log w' = (evs ++ log w)%list /\
    forallb is_retry_event evs = true /\
    count_events is_attempt evs = (axios_calls w' - axios_calls w)%nat /\
    count_events is_sleep evs = (random_calls w' - random_calls w)%nat.

(** The number of attempts made between two worlds. *)
Definition attempts_between (w w' : World) : nat :=
  (axios_calls w' - axios_calls w)%nat.

(** How the loop, entered with [attempt = a], can end: with the first
    success, or by throwing the last failure, which is then terminal or
    has used up the budget; every earlier answer was a gateway failure;
    a budget the counter can reach bounds the number of attempts. *)
Definition retry_outcome (env : Env) (maxRetries a : Z)
    (w : World) (c : Completion Response) (w' : World) : Prop :=
  match c with
  | Returned res =>
      (axios_calls w < axios_calls w')%nat /\
      upstream env (pred (axios_calls w')) = Resolved res /\
      (random_calls w' - random_calls w)%nat = pred (attempts_between w w')
  | Threw err =>
      (axios_calls w < axios_calls w')%nat /\
      upstream env (pred (axios_calls w')) = Rejected err /\
      (random_calls w' - random_calls w)%nat = pred (attempts_between w w') /\
      (isGateway err = false \/
       maxRetries < a + Z.of_nat (attempts_between w w'))
  | OutOfFuel => True
  end /\
  (forall i, (axios_calls w <= i)%nat -> (S i < axios_calls w')%nat ->
             exists e, upstream env i = Rejected e /\ isGateway e = true) /\
  (maxRetries < 2 ^ 53 ->
   Z.of_nat (attempts_between w w') <= Z.max 1 (maxRetries - a + 1)).

(** ** The browser and the request as a whole *)

Definition completion_of (s : Settled) : Completion Response :=
  match s with
  | Resolved res => Returned res
  | Rejected err => Threw err
  end.

(** A gateway failure: the kind of answer the loop retries. *)
Definition transient (s : Settled) : bool :=
  match s with
  | Resolved _ => false
  | Rejected err => isGateway err
  end.

(** What [playwrightFetch] settles to on a given use of the browser:
    the first failing step decides, and a failing [browser.close()]
    overrides what the [try] block did. *)
Definition playwright_outcome (run : BrowserRun) : Settled :=
  match pw_require run with
  | Some e => Rejected e
  | None =>
      match pw_launch run with
      | Some e => Rejected e
      | None =>
          match pw_close run with
          | Some e => Rejected e
          | None =>
              match pw_newPage run with
              | Some e => Rejected e
              | None =>
                  match pw_goto run with
                  | Some e => Rejected e
                  | None =>
                      match pw_content run with
                      | inl html =>
                          Resolved
                            (mkResponse (JString html) (Some playwright_marker))
                      | inr e => Rejected e
                      end
                  end
              end
          end
      end
  end.

(** [playwrightFetch] touches neither the cache nor the upstream, uses
    the browser once, and logs only browser events. *)
Definition browser_frame (w w' : World) : Prop :=
  cache w' = cache w /\
  axios_calls w' = axios_calls w /\
  random_calls w' = random_calls w /\
  browser_calls w' = S (browser_calls w) /\
  now w <= now w' /\
  exists evs,
    log w' = (evs ++ log w)%list /\ forallb is_browser_event evs = true.

(** The world once the gate has let the task in. *)
Definition gate_entered (env : Env) (w : World) : World :=
  suspend env (emit EvGateEnter w).

(** The world after [cache.get(cacheKey)]. *)
Definition after_check (cacheKey : string) (w : World) : World :=
  emit (EvCacheGet cacheKey)
    (set_cache (snd (ExpiringCache.get (now w) cacheKey (cache w))) w).

(** The world after [cache.set(cacheKey, v)]. *)
Definition after_store (cfg : Config) (cacheKey : string) (v : JsValue)
    (w : World) : World :=
  emit (EvCacheSet cacheKey v)
    (set_cache
       (ExpiringCache.set (now w) (CACHE_TTL cfg * 1000) cacheKey v (cache w)) w).

Definition sleeps_between (w w' : World) : nat :=
  (count_events is_sleep (log w') - count_events is_sleep (log w))%nat.

(** How the task handed to [limit] ends, given how the primary strategy
    ended in [w1] (the world it left) and what the browser's next use
    settles to. *)
Definition task_result (cfg : Config) (env : Env) (w : World)
    (c1 : Completion Response) (c : Completion Result) : Prop :=
  match c1 with
  | Returned resp =>
      c = Returned (fetched (resp_data resp) (resp_headers resp))
  | OutOfFuel => c = OutOfFuel
  | Threw err =>
      if PLAYWRIGHT_FALLBACK cfg then
        match playwright_outcome (browser env (browser_calls w)) with
        | Resolved pwResp =>
            c = Returned (fetched (resp_data pwResp) (resp_headers pwResp))
        | Rejected pwErr => c = Returned (failed (message_or_string pwErr))
        end
      else c = Returned (failed (message_or_string err))
  end.

(** The world the task leaves, in the same terms; [w3] is the world the
    browser left when it was used. *)
Definition task_world (cfg : Config) (env : Env) (roll cacheKey : string)
    (w : World) (c1 : Completion Response) (w1 w3 w' : World) : Prop :=
  match c1 with
  | Returned resp => w' = after_store cfg cacheKey (resp_data resp) w1
  | OutOfFuel => w' = w1
  | Threw err =>
      let warned := emit (EvWarnDirectFailed roll (message_or_string err)) w1 in
      if PLAYWRIGHT_FALLBACK cfg then
        browser_frame warned w3 /\
        match playwright_outcome (browser env (browser_calls w)) with
        | Resolved pwResp => w' = after_store cfg cacheKey (resp_data pwResp) w3
        | Rejected pwErr =>
            w' = emit (EvErrorFallbackFailed (message_or_string pwErr)) w3
        end
      else w' = warned
  end.

(** ** Sample environments *)

Definition status_error (status : Z) (msg : string) : JsError :=
  mkError "AxiosError" msg (Some status).

Definition error_503 : JsError :=
  status_error 503 "Request failed with status code 503".

Definition error_404 : JsError :=
  status_error 404 "Request failed with status code 404".

Definition browser_crash : JsError :=
  mkError "Error" "browserType.launch: Executable doesn't exist" None.

(** A roll that is one lone surrogate, U+D800. *)
Definition surrogate_roll : string :=
  String (ascii_of_nat 237)
    (String (ascii_of_nat 160) (String (ascii_of_nat 128) EmptyString)).

Definition result_page : Response :=
  mkResponse (JString "<html>marks</html>")
    (Some [("content-type", "text/html")]).

Definition empty_page : Response :=
  mkResponse (JString "") (Some [("content-type", "text/html")]).

Definition rendering_browser : BrowserRun :=
  mkBrowserRun None None None None (inl "<html>rendered</html>") None.

Definition failing_browser : BrowserRun :=
  mkBrowserRun None (Some browser_crash) None None (inl "") None.

(** An environment whose upstream gives the listed answers in turn and
    [last] ever after; every draw is [x], every suspension takes 10 ms. *)
Definition scripted (answers : list Settled) (last : Settled) (x : Dyadic)
    (run : BrowserRun) : Env :=
  mkEnv (fun i => nth i answers last) (fun _ => x) (fun _ => run)
        (fun _ => 10%N).

Definition one_half : Dyadic := mkDyadic 1 1.

Definition fallback_config : Config := mkConfig 4 8000 5 300 300 true.

(** One slot only: a second task waits until the first has ended. *)
Definition serial_config : Config := mkConfig 1 8000 5 300 300 false.

(** ** The HTTP endpoint *)

(** [String.prototype.trim] on the UTF-8 bytes of a string: the white
    space and line terminators of ECMAScript (TAB, LF, VT, FF, CR, SP,
    U+00A0, U+1680, U+2000..U+200A, U+2028, U+2029, U+202F, U+205F,
    U+3000, U+FEFF), each as its byte sequence. *)
Definition bytes (l : list nat) : string :=
  string_of_list_ascii (map ascii_of_nat l).

Definition js_whitespace : list string :=
  map bytes
    [[9]; [10]; [11]; [12]; [13]; [32]; [194; 160]; [225; 154; 128];
     [226; 128; 128]; [226; 128; 129]; [226; 128; 130]; [226; 128; 131];
     [226; 128; 132]; [226; 128; 133]; [226; 128; 134]; [226; 128; 135];
     [226; 128; 136]; [226; 128; 137]; [226; 128; 138]; [226; 128; 168];
     [226; 128; 169]; [226; 128; 175]; [226; 129; 159]; [227; 128; 128];
     [239; 187; 191]]%nat.

Fixpoint strip_prefix (p s : string) : option string :=
  match p, s with
  | EmptyString, _ => Some s
  | String a p', String b s' =>
      if Ascii.eqb a b then strip_prefix p' s' else None
  | String _ _, EmptyString => None
  end.

(** The string without its first character, when that is one of [ws]. *)
Fixpoint strip_one (ws : list string) (s : string) : option string :=
  match ws with
  | [] => None
  | p :: rest =>
      match strip_prefix p s with
      | Some s' => Some s'
      | None => strip_one rest s
      end
  end.

Fixpoint strip_leading (n : nat) (ws : list string) (s : string) : string :=
  match n with
  | O => s
  | S n' =>
      match strip_one ws s with
      | Some s' => strip_leading n' ws s'
      | None => s
      end
  end.

Definition string_rev (s : string) : string :=
  string_of_list_ascii (rev (list_ascii_of_string s)).

Definition trimStart (s : string) : string :=
  strip_leading (String.length s) js_whitespace s.

Definition trimEnd (s : string) : string :=
  string_rev
    (strip_leading (String.length s) (map string_rev js_whitespace)
       (string_rev s)).

Definition trim (s : string) : string := trimEnd (trimStart s).

(** [req.query.roll]: absent, a string, or (a repeated or nested
    parameter) an array or object. *)
Inductive QueryValue :=
| QMissing
| QString (s : string)
| QStructured.

(** What the handler passes to [res.json] or to [res.send]. *)
Inductive Body :=
| JsonBody (ok : bool) (error : option string)
| SendBody (v : JsValue)
| NoBody.

(** The response as the handler shapes it: the status it sets, the
    headers it sets itself, and the body it passes on. *)
Record HttpResponse := mkHttp {
  http_status : Z;
  http_headers : list (string * string);
  http_body : Body
}.

(** What a handler did: the response it sent and the error it printed
    with [console.error], if any. *)
Record Handled := mkHandled {
  sent : HttpResponse;
  printed : option JsError
}.

Definition not_a_function : JsError :=
  mkError "TypeError" "(req.query.roll || '').trim is not a function" None.

Definition bad_request : HttpResponse :=
  mkHttp 400 [] (JsonBody false (Some "roll query param required")).

(** The 500 answer of the catch-all branch, with the headers the
    handler had set by then. *)
Definition internal_server_error (set_so_far : list (string * string))
  : HttpResponse :=
  mkHttp 500 set_so_far (JsonBody false (Some "internal server error")).

(** [result.error || 'failed to fetch']. *)
Definition error_or_default (r : Result) : string :=
  match error r with
  | Some e => if truthy e then e else "failed to fetch"
  | None => "failed to fetch"
  end.

Definition bad_gateway (r : Result) : HttpResponse :=
  mkHttp 502 [] (JsonBody false (Some (error_or_default r))).

(** The headers of a success: [Content-Type], then [X-Cache] by
    [result.fromCache]. *)
Definition success_headers (r : Result) : list (string * string) :=
  [("Content-Type", "text/html; charset=utf-8");
   ("X-Cache", match fromCache r with Some true => "HIT" | _ => "MISS" end)].

(** The 200 answer: the two headers, then
    [res.status(200).send(result.data)]. *)
Definition success_response (r : Result) : HttpResponse :=
  mkHttp 200 (success_headers r)
    (match data r with Some d => SendBody d | None => NoBody end).

Section Endpoint.

Variable cfg : Config.
Variable env : Env.

(** Express's [res.send(body)], which is not among the sources: [None]
    when it returns, the error when it throws.  What it does with a body
    that is not a string depends on the version of Express (a number is
    a status code for one, JSON for another), so this is left open. *)
Variable res_send : option JsValue -> option JsError.

(** [await p]: the caller is resumed, after a suspension, when [p] has
    settled either way. *)
Definition await {A} (p : M A) : M A :=
  fun w =>
    match p w with
    | (OutOfFuel, w') => (OutOfFuel, w')
    | (c, w') => (c, suspend env w')
    end.

(** [app.get('/api/result', async (req, res) => ...)].  The catch-all
    branch is reached from two places: a throwing [fetchResultForRoll],
    before any header is set, and a throwing [res.send], after both
    are. *)
Definition api_result (fuel : nat) (q : QueryValue) : M Handled :=
  match q with
  | QStructured => throw not_a_function
  | _ =>
      let roll :=
        trim match q with
             | QString s => if truthy s then s else ""
             | _ => ""
             end in
      if negb (truthy roll) then ret (mkHandled bad_request None)
      else
        try_catch
          (do result <- await (fetchResultForRoll cfg env fuel roll);
           if negb (ok result) then ret (mkHandled (bad_gateway result) None)
           else
             match res_send (data result) with
             | None => ret (mkHandled (success_response result) None)
             | Some err =>
                 ret (mkHandled (internal_server_error (success_headers result))
                        (Some err))
             end)
          (fun err => ret (mkHandled (internal_server_error []) (Some err)))
  end.

(** [app.get('/healthz', (req, res) => res.json({ ok: true }))]. *)
Definition healthz : HttpResponse := mkHttp 200 [] (JsonBody true None).

End Endpoint.

(** A [res.send] that takes a string, or nothing, and throws on any
    other body. *)
Definition send_text_only (body : option JsValue) : option JsError :=
  match body with
  | Some (JString _) | None => None
  | Some _ => Some (mkError "RangeError" "Invalid status code" None)
  end.

(** ** Shapes of logs and results *)

Definition is_gate_enter (e : Event) : bool :=
  match e with EvGateEnter => true | _ => false end.

Definition is_gate_exit (e : Event) : bool :=
  match e with EvGateExit => true | _ => false end.

Definition is_browser_close (e : Event) : bool :=
  match e with EvBrowserClose => true | _ => false end.

(** In a chronological list of events: every further attempt comes
    right after the warning and the sleep of a back-off, the warnings
    count the attempts from [expected] on, as [attempt++] does, and each
    sleep lasts what its warning announced. *)
Fixpoint paced (expected : Z) (l : list Event) : bool :=
  match l with
  | [] => true
  | EvWarnRetry attempt wait :: EvSleep ms :: EvAxiosGet _ _ :: rest =>
      (attempt =? expected) && (wait =? ms)
      && paced (next_attempt expected) rest
  | _ => false
  end.

(** The fields a result has: a success carries its data and no error, a
    failure carries its error and nothing else. *)
Definition well_formed_result (r : Result) : bool :=
  if ok r then
    match fromCache r, data r, error r with
    | Some _, Some _, None => true
    | _, _, _ => false
    end
  else
    match fromCache r, data r, headers r, error r with
    | None, None, None, Some _ => true
    | _, _, _, _ => false
    end.

(** A character [encodeURIComponent] can put out. *)
Definition uri_safe (c : ascii) : bool := unreserved c || Ascii.eqb c "%".

(** The answers [n, n + 1, ..., n + k - 1] of the upstream are gateway
    failures. *)
Fixpoint transient_run (env : Env) (n k : nat) : bool :=
  match k with
  | O => true
  | S k' => transient (upstream env n) && transient_run env (S n) k'
  end.

(** A browser none of whose steps fails, showing [html]. *)
Definition healthy_browser (html : string) : BrowserRun :=
  mkBrowserRun None None None None (inl html) None.

(** The events the task handed to [limit] can produce. *)
Definition is_task_event (e : Event) : bool :=
  match e with
  | EvCacheGet _ | EvGateEnter | EvGateExit => false
  | _ => true
  end.

(** * Properties *)

(** ** Doubles *)

Section Doubles.

Lemma excess_bits_small (n : Z) : Z.abs n < 2 ^ 53 -> excess_bits n <= 0.
Proof.
  intros Hn. unfold excess_bits.
  destruct (Z.eq_dec (Z.abs n) 0) as [E | E].
  - rewrite E. change (Z.log2 0) with 0. lia.
  - assert (Z.log2 (Z.abs n) < 53) by (apply Z.log2_lt_pow2; lia). lia.
Qed.

(** Integers below 2^53 in absolute value are doubles. *)
Lemma fl_int_exact (n : Z) : Z.abs n < 2 ^ 53 -> fl_int n = n.
Proof.
  intros Hn. unfold fl_int.
  pose proof (excess_bits_small n Hn) as Hd.
  destruct (excess_bits n <=? 0) eqn:E; [reflexivity | lia].
Qed.

(** [attempt++] adds one up to 2^53 and leaves 2^53 as it is. *)
Lemma next_attempt_exact (a : Z) : 0 <= a < 2 ^ 53 -> next_attempt a = a + 1.
Proof.
  intros Ha. unfold next_attempt.
  destruct (Z.eq_dec (a + 1) (2 ^ 53)) as [E | E].
  - rewrite E. vm_compute. reflexivity.
  - apply fl_int_exact. lia.
Qed.

Lemma next_attempt_stuck : next_attempt (2 ^ 53) = 2 ^ 53.
Proof. vm_compute. reflexivity. Qed.

Lemma next_attempt_min (a : Z) :
  0 <= a <= 2 ^ 53 -> next_attempt a = Z.min (a + 1) (2 ^ 53).
Proof.
  intros Ha. destruct (Z.eq_dec a (2 ^ 53)) as [-> | E].
  - rewrite next_attempt_stuck. vm_compute. reflexivity.
  - rewrite next_attempt_exact by lia. lia.
Qed.




End Doubles.

(** ** The retry loop *)

Section RetryLoop.

Variable cfg : Config.
Variable env : Env.

Lemma retry_loop_resolved fuel url mr a w res :
  upstream env (axios_calls w) = Resolved res ->
  retry_loop cfg env (S fuel) url mr a w
  = (Returned res, after_attempt cfg env url w).
Proof.
  intros Hup. cbn [retry_loop]. unfold try_catch, bind, axios_get.
  rewrite Hup. reflexivity.
Qed.

Lemma retry_loop_last fuel url mr a w err :
  upstream env (axios_calls w) = Rejected err ->
  negb (isGateway err) || (next_attempt a >? mr) = true ->
  retry_loop cfg env (S fuel) url mr a w
  = (Threw err, after_attempt cfg env url w).
Proof.
  intros Hup Hfinal. cbn [retry_loop]. unfold try_catch, bind, axios_get.
  rewrite Hup, Hfinal. reflexivity.
Qed.

Lemma retry_loop_next fuel url mr a w err :
  upstream env (axios_calls w) = Rejected err ->
  isGateway err = true ->
  next_attempt a <= mr ->
  retry_loop cfg env (S fuel) url mr a w
  = retry_loop cfg env fuel url mr (next_attempt a)
      (after_backoff cfg env (next_attempt a) (after_attempt cfg env url w)).
Proof.
  intros Hup Hgw Hle. cbn [retry_loop]. unfold try_catch at 1, bind at 1, axios_get.
  rewrite Hup, Hgw. cbn [negb orb].
  destruct (next_attempt a >? mr) eqn:E; [apply Z.gtb_lt in E; lia |].
  reflexivity.
Qed.

(** The same two steps while the counter is exact. *)
Lemma retry_loop_final fuel url mr a w err :
  0 <= a < 2 ^ 53 ->
  upstream env (axios_calls w) = Rejected err ->
  negb (isGateway err) || (a + 1 >? mr) = true ->
  retry_loop cfg env (S fuel) url mr a w
  = (Threw err, after_attempt cfg env url w).
Proof.
  intros Ha Hup Hfinal. apply retry_loop_last; [exact Hup |].
  rewrite next_attempt_exact by exact Ha. exact Hfinal.
Qed.

Lemma retry_loop_again fuel url mr a w err :
  0 <= a < 2 ^ 53 ->
  upstream env (axios_calls w) = Rejected err ->
  isGateway err = true ->
  a + 1 <= mr ->
  retry_loop cfg env (S fuel) url mr a w
  = retry_loop cfg env fuel url mr (a + 1)
      (after_backoff cfg env (a + 1) (after_attempt cfg env url w)).
Proof.
  intros Ha Hup Hgw Hle.
  rewrite <- (next_attempt_exact a Ha).
  apply retry_loop_next with (err := err); [exact Hup | exact Hgw |].
  rewrite next_attempt_exact by exact Ha. exact Hle.
Qed.

Lemma count_events_app p (l1 l2 : list Event) :
  count_events p (l1 ++ l2)%list = (count_events p l1 + count_events p l2)%nat.
Proof. unfold count_events. rewrite List.filter_app, length_app. reflexivity. Qed.

Lemma retry_frame_refl w : retry_frame w w.
Proof.
  unfold retry_frame. repeat split; try lia.
  exists []. cbn. repeat split; lia.
Qed.

Lemma retry_frame_trans w1 w2 w3 :
  retry_frame w1 w2 -> retry_frame w2 w3 -> retry_frame w1 w3.
Proof.
  intros (Hc & Hb & Hn & Ha & Hr & evs & Hl & Hf & Hca & Hcs)
         (Hc' & Hb' & Hn' & Ha' & Hr' & evs' & Hl' & Hf' & Hca' & Hcs').
  unfold retry_frame. repeat split; try congruence; try lia.
  exists (evs' ++ evs)%list. repeat split.
  - rewrite Hl', Hl. apply app_assoc.
  - rewrite forallb_app, Hf, Hf'. reflexivity.
  - rewrite count_events_app. lia.
  - rewrite count_events_app. lia.
Qed.

Lemma retry_frame_attempt url w : retry_frame w (after_attempt cfg env url w).
Proof.
  unfold retry_frame, after_attempt. cbn. repeat split; try lia.
  exists [EvAxiosGet url (REQUEST_TIMEOUT cfg)]. cbn. repeat split; lia.
Qed.

Lemma retry_frame_backoff a w : retry_frame w (after_backoff cfg env a w).
Proof.
  unfold retry_frame, after_backoff. cbn. repeat split; try lia.
  exists [EvSleep (wait_in cfg env a w); EvWarnRetry a (wait_in cfg env a w)].
  cbn. repeat split; lia.
Qed.

(** Whatever the fuel, a run of the loop respects the frame and ends in
    one of the ways [retry_outcome] lists. *)
Lemma retry_loop_post fuel : forall url mr a w c w',
  0 <= a <= 2 ^ 53 ->
  retry_loop cfg env fuel url mr a w = (c, w') ->
  retry_frame w w' /\ retry_outcome env mr a w c w'.
Proof.
  induction fuel as [| fuel IH]; intros url mr a w c w' Ha Hrun.
  - cbn in Hrun. injection Hrun as <- <-. split; [apply retry_frame_refl |].
    unfold retry_outcome, attempts_between. repeat split; try lia.
  - pose proof (next_attempt_min a Ha) as Hnext.
    destruct (upstream env (axios_calls w)) as [res | err] eqn:Hup.
    + erewrite retry_loop_resolved in Hrun by exact Hup.
      injection Hrun as <- <-. split; [apply retry_frame_attempt |].
      unfold retry_outcome, attempts_between, after_attempt. cbn.
      repeat split; try lia; exact Hup.
    + destruct (negb (isGateway err) || (next_attempt a >? mr)) eqn:Hfinal.
      * erewrite retry_loop_last in Hrun by eassumption.
        injection Hrun as <- <-. split; [apply retry_frame_attempt |].
        unfold retry_outcome, attempts_between, after_attempt. cbn.
        repeat split; try lia; [exact Hup |].
        apply orb_true_iff in Hfinal as [Hg | Hgt].
        -- left. now apply negb_true_iff in Hg.
        -- right. apply Z.gtb_lt in Hgt. lia.
      * apply orb_false_iff in Hfinal as [Hg Hle].
        apply negb_false_iff in Hg. rewrite Z.gtb_ltb in Hle. apply Z.ltb_ge in Hle.
        erewrite retry_loop_next in Hrun by eassumption.
        apply IH in Hrun as [Hframe Hout]; [| lia].
        set (w1 := after_backoff cfg env (next_attempt a)
                     (after_attempt cfg env url w)) in *.
        assert (Hf1 : retry_frame w w1).
        { eapply retry_frame_trans;
            [apply retry_frame_attempt | apply retry_frame_backoff]. }
        assert (Ha1 : axios_calls w1 = S (axios_calls w)) by reflexivity.
        assert (Hr1 : random_calls w1 = S (random_calls w)) by reflexivity.
        split; [eapply retry_frame_trans; eassumption |].
        destruct Hframe as (_ & _ & _ & Hale & Hrle & _).
        destruct Hout as (Hend & Hearlier & Hbound).
        unfold retry_outcome, attempts_between in *.
        rewrite Ha1, Hr1 in *.
        repeat split.
        -- destruct c as [res | e |]; [| | exact I].
           ++ destruct Hend as (? & ? & ?). repeat split; [lia | assumption | lia].
           ++ destruct Hend as (? & ? & ? & Hwhy).
              repeat split; [lia | assumption | lia |].
              destruct Hwhy; [now left | right; lia].
        -- intros i Hi1 Hi2.
           destruct (Nat.eq_dec i (axios_calls w)) as [-> | Hne].
           ++ exists err. split; assumption.
           ++ apply Hearlier; lia.
        -- intros Hmr. specialize (Hbound Hmr). lia.
Qed.

(** The loop of [fetchWithRetries], which starts counting at zero. *)
Lemma fetchWithRetries_post fuel url mr w c w' :
  retry_loop cfg env fuel url mr 0 w = (c, w') ->
  retry_frame w w' /\ retry_outcome env mr 0 w c w'.
Proof. apply retry_loop_post. lia. Qed.

(** With a budget the counter can reach, fuel beyond the budget is never
    used up. *)
Lemma retry_loop_terminates fuel : forall url mr a w,
  0 <= a <= 2 ^ 53 ->
  mr < 2 ^ 53 ->
  (Z.to_nat (mr - a) < fuel)%nat ->
  fst (retry_loop cfg env fuel url mr a w) <> OutOfFuel.
Proof.
  induction fuel as [| fuel IH]; intros url mr a w Ha Hmr Hfuel; [lia |].
  pose proof (next_attempt_min a Ha) as Hnext.
  destruct (upstream env (axios_calls w)) as [res | err] eqn:Hup.
  - erewrite retry_loop_resolved by exact Hup. discriminate.
  - destruct (negb (isGateway err) || (next_attempt a >? mr)) eqn:Hfinal.
    + erewrite retry_loop_last by eassumption. discriminate.
    + apply orb_false_iff in Hfinal as [Hg Hle].
      apply negb_false_iff in Hg. rewrite Z.gtb_ltb in Hle. apply Z.ltb_ge in Hle.
      erewrite retry_loop_next by eassumption.
      apply IH; lia.
Qed.

(** With a budget of 2^53 or more the counter never passes it: as long
    as the upstream answers with gateway failures the loop goes on,
    whatever the fuel. *)
Lemma retry_loop_never_ends fuel : forall url mr a w,
  0 <= a <= 2 ^ 53 ->
  2 ^ 53 <= mr ->
  (forall i, exists e, upstream env i = Rejected e /\ isGateway e = true) ->
  fst (retry_loop cfg env fuel url mr a w) = OutOfFuel /\
  axios_calls (snd (retry_loop cfg env fuel url mr a w))
  = (axios_calls w + fuel)%nat.
Proof.
  induction fuel as [| fuel IH]; intros url mr a w Ha Hmr Hup;
    [split; [reflexivity | cbn; lia] |].
  pose proof (next_attempt_min a Ha) as Hnext.
  destruct (Hup (axios_calls w)) as (e & He & Hgw).
  erewrite retry_loop_next by (eassumption || lia).
  destruct (IH url mr (next_attempt a)
              (after_backoff cfg env (next_attempt a)
                 (after_attempt cfg env url w)))
    as [Hout Hcalls]; [lia | exact Hmr | exact Hup |].
  split; [exact Hout |]. rewrite Hcalls. cbn. lia.
Qed.

End RetryLoop.

(** ** The browser fallback *)

Section Fallback.

Variable cfg : Config.
Variable env : Env.

Lemma playwrightFetch_run url w :
  exists w',
    playwrightFetch env url w
    = (completion_of (playwright_outcome (browser env (browser_calls w))), w')
    /\ browser_frame w w'.
Proof.
  unfold playwrightFetch, playwright_outcome, browser_frame.
  destruct (browser env (browser_calls w)) as [rq la np gt ct cl].
  cbn [pw_require pw_launch pw_newPage pw_goto pw_content pw_close].
  destruct rq, la, np, gt, ct, cl; cbn;
    (eexists; split; [reflexivity |]; cbn;
     repeat split; try lia;
     first [ exists [EvPlaywright url]; split; reflexivity
           | exists [EvBrowserClose; EvPlaywright url]; split; reflexivity ]).
Qed.

End Fallback.

(** ** The request *)

Section Request.

Variable cfg : Config.
Variable env : Env.

Lemma fetchResultForRoll_task_inv fuel roll cacheKey url w c w' :
  fetchResultForRoll_task cfg env fuel roll cacheKey url w = (c, w') ->
  exists c1 w1 w3,
    fetchWithRetries cfg env fuel url (MAX_RETRIES cfg) w = (c1, w1) /\
    task_result cfg env w c1 c /\
    task_world cfg env roll cacheKey w c1 w1 w3 w'.
Proof.
  unfold fetchResultForRoll_task, try_catch at 1, bind at 1.
  destruct (fetchWithRetries cfg env fuel url (MAX_RETRIES cfg) w)
    as [[resp | err |] w1] eqn:Hprimary; intros Hrun.
  - cbn in Hrun. injection Hrun as <- <-.
    exists (Returned resp), w1, w1. repeat split.
  - pose proof (fetchWithRetries_post cfg env _ _ _ _ _ _ Hprimary)
      as [(_ & Hb & _) _].
    exists (Threw err), w1. unfold task_result, task_world.
    unfold bind at 1, tell at 1 in Hrun.
    destruct (PLAYWRIGHT_FALLBACK cfg).
    + unfold try_catch, bind at 1 in Hrun.
      destruct (playwrightFetch_run env url
                  (emit (EvWarnDirectFailed roll (message_or_string err)) w1))
        as (w3 & Hpw & Hframe).
      rewrite Hpw in Hrun. cbn [browser_calls emit] in Hrun. rewrite Hb in Hrun.
      exists w3.
      destruct (playwright_outcome (browser env (browser_calls w)))
        as [pwResp | pwErr]; cbn in Hrun; injection Hrun as <- <-;
        (split; [reflexivity | split; [reflexivity | split; [exact Hframe | reflexivity]]]).
    + cbn in Hrun. injection Hrun as <- <-. exists w1. repeat split.
  - cbn in Hrun. injection Hrun as <- <-.
    exists OutOfFuel, w1, w1. repeat split.
Qed.

Lemma fetchResultForRoll_check_hit roll w v :
  ExpiringCache.peek (now w) (cacheKey_of roll) (cache w) = Some v ->
  js_truthy v = true ->
  fetchResultForRoll_check roll w
  = (Returned (inl (served_from_cache v)), after_check (cacheKey_of roll) w).
Proof.
  unfold ExpiringCache.peek, fetchResultForRoll_check, bind, cache_get, after_check.
  destruct (ExpiringCache.get (now w) (cacheKey_of roll) (cache w)) as [o c].
  cbn. intros -> ->. reflexivity.
Qed.

Lemma fetchResultForRoll_check_miss roll url w :
  truthy_opt (ExpiringCache.peek (now w) (cacheKey_of roll) (cache w)) = false ->
  KTU_FETCH_URL_TEMPLATE roll = Some url ->
  fetchResultForRoll_check roll w
  = (Returned (inr (cacheKey_of roll, url)), after_check (cacheKey_of roll) w).
Proof.
  unfold ExpiringCache.peek, fetchResultForRoll_check, bind, cache_get,
    after_check, url_of.
  destruct (ExpiringCache.get (now w) (cacheKey_of roll) (cache w)) as [[v |] c];
    cbn; intros Hmiss Hurl; rewrite ?Hmiss, Hurl; reflexivity.
Qed.

Lemma fetchResultForRoll_check_unencodable roll w :
  truthy_opt (ExpiringCache.peek (now w) (cacheKey_of roll) (cache w)) = false ->
  KTU_FETCH_URL_TEMPLATE roll = None ->
  fetchResultForRoll_check roll w
  = (Threw uri_malformed, after_check (cacheKey_of roll) w).
Proof.
  unfold ExpiringCache.peek, fetchResultForRoll_check, bind, cache_get,
    after_check, url_of.
  destruct (ExpiringCache.get (now w) (cacheKey_of roll) (cache w)) as [[v |] c];
    cbn; intros Hmiss Hurl; rewrite ?Hmiss, Hurl; reflexivity.
Qed.

(** A cached value the code accepts is served at once: nothing but the
    cache is touched. *)
Lemma fetchResultForRoll_hit fuel roll w v :
  ExpiringCache.peek (now w) (cacheKey_of roll) (cache w) = Some v ->
  js_truthy v = true ->
  fetchResultForRoll cfg env fuel roll w
  = (Returned (served_from_cache v), after_check (cacheKey_of roll) w).
Proof.
  intros Hpeek Htruthy. unfold fetchResultForRoll, bind.
  rewrite (fetchResultForRoll_check_hit _ _ _ Hpeek Htruthy). reflexivity.
Qed.

(** On a miss with a roll that has no url the request throws before
    the gate. *)
Lemma fetchResultForRoll_unencodable fuel roll w :
  truthy_opt (ExpiringCache.peek (now w) (cacheKey_of roll) (cache w)) = false ->
  KTU_FETCH_URL_TEMPLATE roll = None ->
  fetchResultForRoll cfg env fuel roll w
  = (Threw uri_malformed, after_check (cacheKey_of roll) w).
Proof.
  intros Hmiss Hurl. unfold fetchResultForRoll, bind at 1.
  rewrite (fetchResultForRoll_check_unencodable _ _ Hmiss Hurl). reflexivity.
Qed.

(** Otherwise the task goes through the gate, and the slot is given
    back when it ends. *)
Lemma fetchResultForRoll_miss fuel roll url w :
  truthy_opt (ExpiringCache.peek (now w) (cacheKey_of roll) (cache w)) = false ->
  KTU_FETCH_URL_TEMPLATE roll = Some url ->
  fetchResultForRoll cfg env fuel roll w
  = let '(c, w2) :=
      fetchResultForRoll_task cfg env fuel roll (cacheKey_of roll) url
        (gate_entered env (after_check (cacheKey_of roll) w)) in
    match c with
    | OutOfFuel => (OutOfFuel, w2)
    | _ => (c, emit EvGateExit w2)
    end.
Proof.
  intros Hmiss Hurl. unfold fetchResultForRoll, bind at 1.
  rewrite (fetchResultForRoll_check_miss _ _ _ Hmiss Hurl).
  unfold fetchResultForRoll_resume, limit, bind, try_finally, gate_entered, tell.
  destruct (fetchResultForRoll_task cfg env fuel roll (cacheKey_of roll)
              url _) as [[r | e |] w2]; reflexivity.
Qed.

(** The three ways of a request: served from the cache; thrown before
    the gate, for want of a url; or through the gate. *)
Lemma fetchResultForRoll_inv fuel roll w c w' :
  fetchResultForRoll cfg env fuel roll w = (c, w') ->
  let key := cacheKey_of roll in
  let w0 := after_check key w in
  (exists v,
      ExpiringCache.peek (now w) key (cache w) = Some v /\ js_truthy v = true /\
      c = Returned (served_from_cache v) /\ w' = w0)
  \/
  (truthy_opt (ExpiringCache.peek (now w) key (cache w)) = false /\
   KTU_FETCH_URL_TEMPLATE roll = None /\
   c = Threw uri_malformed /\ w' = w0)
  \/
  (truthy_opt (ExpiringCache.peek (now w) key (cache w)) = false /\
   exists url c1 w1 w3 w2,
     KTU_FETCH_URL_TEMPLATE roll = Some url /\
     fetchWithRetries cfg env fuel url (MAX_RETRIES cfg) (gate_entered env w0)
     = (c1, w1) /\
     task_result cfg env w c1 c /\
     task_world cfg env roll key w c1 w1 w3 w2 /\
     w' = match c with OutOfFuel => w2 | _ => emit EvGateExit w2 end).
Proof.
  intros Hrun key w0.
  destruct (truthy_opt (ExpiringCache.peek (now w) key (cache w))) eqn:Hcached.
  - left. destruct (ExpiringCache.peek (now w) key (cache w)) as [v |] eqn:Hpeek;
      [| discriminate].
    cbn in Hcached. rewrite (fetchResultForRoll_hit _ _ _ _ Hpeek Hcached) in Hrun.
    injection Hrun as <- <-. exists v. repeat split. assumption.
  - right. destruct (KTU_FETCH_URL_TEMPLATE roll) as [url |] eqn:Hurl.
    + right. split; [reflexivity |].
      rewrite (fetchResultForRoll_miss _ _ _ _ Hcached Hurl) in Hrun.
      fold key in Hrun. fold w0 in Hrun.
      destruct (fetchResultForRoll_task cfg env fuel roll key url
                  (gate_entered env w0)) as [c2 w2] eqn:Htask.
      apply fetchResultForRoll_task_inv in Htask
        as (c1 & w1 & w3 & Hprimary & Hres & Hworld).
      exists url, c1, w1, w3, w2.
      destruct c2; injection Hrun as <- <-;
        (split; [reflexivity |
         split; [exact Hprimary | split; [exact Hres |
         split; [exact Hworld | reflexivity]]]]).
    + left. rewrite (fetchResultForRoll_unencodable _ _ _ Hcached Hurl) in Hrun.
      injection Hrun as <- <-. repeat split.
Qed.

End Request.

(** ** The cache *)

Section Cache.

Implicit Types c : gmap string ExpiringCache.CacheEntry.

(** Eviction on read is not observable by later reads. *)
Lemma peek_after_get c (t0 t : Z) (k0 k : string) :
  t0 <= t ->
  ExpiringCache.peek t k (snd (ExpiringCache.get t0 k0 c))
  = ExpiringCache.peek t k c.
Proof.
  intros Ht. unfold ExpiringCache.peek, ExpiringCache.get.
  destruct (c !! k0) as [e0 |] eqn:Hk0; [| reflexivity].
  destruct (ExpiringCache.expired t0 e0) eqn:Hexp; [| reflexivity].
  cbn [snd]. destruct (decide (k = k0)) as [-> | Hne].
  - rewrite lookup_delete_eq, Hk0.
    unfold ExpiringCache.expired in *. apply Z.leb_le in Hexp.
    destruct (_ <=? t) eqn:E; [reflexivity | apply Z.leb_gt in E; lia].
  - rewrite lookup_delete_ne by congruence.
    destruct (c !! k) as [e |]; [destruct (ExpiringCache.expired t e) |];
      reflexivity.
Qed.

(** What the code treats as a miss stays a miss as time passes. *)
Lemma miss_persists c (t0 t : Z) (k : string) :
  t0 <= t ->
  truthy_opt (ExpiringCache.peek t0 k c) = false ->
  truthy_opt (ExpiringCache.peek t k c) = false.
Proof.
  intros Ht. unfold ExpiringCache.peek, ExpiringCache.get.
  destruct (c !! k) as [e |]; [| reflexivity].
  unfold ExpiringCache.expired.
  destruct (_ <=? t0) eqn:E0; destruct (_ <=? t) eqn:E; cbn; try reflexivity;
    try (intros; assumption).
  apply Z.leb_le in E0. apply Z.leb_gt in E. lia.
Qed.

Lemma peek_after_set c (t0 life t : Z) (k : string) (v : JsValue) :
  ExpiringCache.peek t k (ExpiringCache.set t0 life k v c)
  = if t0 + life <=? t then None else Some v.
Proof.
  unfold ExpiringCache.peek, ExpiringCache.get, ExpiringCache.set.
  rewrite lookup_insert_eq. unfold ExpiringCache.expired. cbn.
  destruct (_ <=? t); reflexivity.
Qed.

End Cache.

(** While the entry a fetch stored is live, a request for the roll is
    served from the cache, provided the stored body is truthy. *)
Lemma stored_body_served_within_ttl cfg env fuel roll w c (t0 life : Z) v :
  cache w = ExpiringCache.set t0 life (cacheKey_of roll) v c ->
  now w < t0 + life ->
  js_truthy v = true ->
  fetchResultForRoll cfg env fuel roll w
  = (Returned (served_from_cache v), after_check (cacheKey_of roll) w).
Proof.
  intros Hcache Hlive Htruthy. apply fetchResultForRoll_hit; [| exact Htruthy].
  rewrite Hcache, peek_after_set.
  destruct (t0 + life <=? now w) eqn:E; [apply Z.leb_le in E; lia | reflexivity].
Qed.

Lemma count_events_excluded (p q : Event -> bool) (l : list Event) :
  (forall e, p e = true -> q e = false) ->
  forallb p l = true -> count_events q l = 0%nat.
Proof.
  intros Hpq. unfold count_events. induction l as [| e l IH]; [reflexivity |].
  cbn. intros [He Hl]%andb_true_iff. rewrite (Hpq e He). auto.
Qed.

Lemma playwright_outcome_resolved run pwResp :
  playwright_outcome run = Resolved pwResp ->
  resp_headers pwResp = Some playwright_marker.
Proof.
  unfold playwright_outcome.
  destruct (pw_require run), (pw_launch run), (pw_close run), (pw_newPage run),
    (pw_goto run), (pw_content run); try discriminate.
  intros [= <-]. reflexivity.
Qed.

Lemma retry_loop_attempts_once cfg env fuel url mr a w c w' :
  0 <= a <= 2 ^ 53 ->
  retry_loop cfg env (S fuel) url mr a w = (c, w') ->
  (axios_calls w < axios_calls w')%nat.
Proof.
  intros Ha Hrun.
  pose proof (next_attempt_min a Ha) as Hnext.
  destruct (upstream env (axios_calls w)) as [res | err] eqn:Hup.
  - erewrite retry_loop_resolved in Hrun by exact Hup.
    injection Hrun as _ <-. cbn. lia.
  - destruct (negb (isGateway err) || (next_attempt a >? mr)) eqn:Hfinal.
    + erewrite retry_loop_last in Hrun by eassumption.
      injection Hrun as _ <-. cbn. lia.
    + apply orb_false_iff in Hfinal as [Hg Hle].
      apply negb_false_iff in Hg. rewrite Z.gtb_ltb in Hle. apply Z.ltb_ge in Hle.
      erewrite retry_loop_next in Hrun by eassumption.
      apply retry_loop_post in Hrun as [(_ & _ & _ & Hle' & _) _]; [| lia].
      cbn in Hle'. lia.
Qed.

(** ** Claims about the retry loop *)

Lemma transient_inv (s : Settled) :
  transient s = true -> exists err, s = Rejected err /\ isGateway err = true.
Proof. destruct s as [res | err]; [discriminate | eauto]. Qed.

Lemma count_sleep_attempt cfg env url w :
  count_events is_sleep (log (after_attempt cfg env url w))
  = count_events is_sleep (log w).
Proof. reflexivity. Qed.

Lemma count_sleep_backoff cfg env a w :
  count_events is_sleep (log (after_backoff cfg env a w))
  = S (count_events is_sleep (log w)).
Proof. reflexivity. Qed.

(** C1.  With [maxRetries = 3], four gateway failures in a row make the
    loop perform exactly four attempts (three of them after a sleep) and
    throw the fourth failure; two gateway failures followed by a success
    make it perform exactly three attempts and return the success.  With
    [maxRetries = 0] exactly one attempt is made, whatever its outcome,
    and nothing is slept. *)
Theorem C1_attempts_for_budget_three_and_zero
    (cfg : Config) (env : Env) (url : string) (w : World) (fuel : nat) :
  (4 <= fuel)%nat ->
  let n := axios_calls w in
  (transient (upstream env n) = true ->
   transient (upstream env (S n)) = true ->
   transient (upstream env (S (S n))) = true ->
   transient (upstream env (S (S (S n)))) = true ->
   exists w',
     fetchWithRetries cfg env fuel url 3 w
     = (completion_of (upstream env (S (S (S n)))), w') /\
     attempts_between w w' = 4%nat /\ sleeps_between w w' = 3%nat)
  /\
  (forall res,
   transient (upstream env n) = true ->
   transient (upstream env (S n)) = true ->
   upstream env (S (S n)) = Resolved res ->
   exists w',
     fetchWithRetries cfg env fuel url 3 w = (Returned res, w') /\
     attempts_between w w' = 3%nat /\ sleeps_between w w' = 2%nat)
  /\
  (exists w',
     fetchWithRetries cfg env fuel url 0 w
     = (completion_of (upstream env n), w') /\
     attempts_between w w' = 1%nat /\ sleeps_between w w' = 0%nat).
Proof.
  intros Hfuel n.
  destruct fuel as [| [| [| [| fuel]]]]; try lia. clear Hfuel.
  unfold fetchWithRetries, attempts_between, sleeps_between.
  split; [| split].
  - intros H0 H1 H2 H3.
    apply transient_inv in H0 as (e0 & U0 & G0).
    apply transient_inv in H1 as (e1 & U1 & G1).
    apply transient_inv in H2 as (e2 & U2 & G2).
    apply transient_inv in H3 as (e3 & U3 & G3).
    erewrite retry_loop_again by (eassumption || lia).
    erewrite retry_loop_again by (eassumption || lia).
    erewrite retry_loop_again by (eassumption || lia).
    erewrite retry_loop_final; [| lia | exact U3 | apply orb_true_r].
    rewrite U3. eexists. split; [reflexivity |].
    repeat (rewrite count_sleep_attempt || rewrite count_sleep_backoff).
    cbn [axios_calls after_attempt after_backoff suspend emit next_axios next_random].
    split; lia.
  - intros res H0 H1 U2.
    apply transient_inv in H0 as (e0 & U0 & G0).
    apply transient_inv in H1 as (e1 & U1 & G1).
    erewrite retry_loop_again by (eassumption || lia).
    erewrite retry_loop_again by (eassumption || lia).
    erewrite retry_loop_resolved by exact U2.
    eexists. split; [reflexivity |].
    repeat (rewrite count_sleep_attempt || rewrite count_sleep_backoff).
    cbn [axios_calls after_attempt after_backoff suspend emit next_axios next_random].
    split; lia.
  - destruct (upstream env n) as [res | err] eqn:U0.
    + erewrite retry_loop_resolved by exact U0.
      eexists. split; [reflexivity |]. rewrite count_sleep_attempt.
      cbn [axios_calls after_attempt suspend emit next_axios]. split; lia.
    + erewrite retry_loop_final; [| lia | exact U0 | apply orb_true_r].
      eexists. split; [reflexivity |]. rewrite count_sleep_attempt.
      cbn [axios_calls after_attempt suspend emit next_axios]. split; lia.
Qed.

Lemma C1_attempts_witness :
  (exists w',
     fetchWithRetries default_config
       (scripted [] (Rejected error_503) one_half rendering_browser)
       4 "u" 3 initial_world = (Threw error_503, w') /\
     attempts_between initial_world w' = 4%nat /\
     sleeps_between initial_world w' = 3%nat) /\
  (exists w',
     fetchWithRetries default_config
       (scripted [Rejected error_503; Rejected error_503]
                 (Resolved result_page) one_half rendering_browser)
       4 "u" 3 initial_world = (Returned result_page, w') /\
     attempts_between initial_world w' = 3%nat /\
     sleeps_between initial_world w' = 2%nat).
Proof.
  split.
  - destruct (C1_attempts_for_budget_three_and_zero default_config
                (scripted [] (Rejected error_503) one_half rendering_browser)
                "u" initial_world 4 (Nat.le_refl 4)) as [H _].
    apply H; reflexivity.
  - destruct (C1_attempts_for_budget_three_and_zero default_config
                (scripted [Rejected error_503; Rejected error_503]
                          (Resolved result_page) one_half rendering_browser)
                "u" initial_world 4 (Nat.le_refl 4)) as (_ & H & _).
    apply H; reflexivity.
Defined.

(** C5.  A first failure that carries a response status other than 502,
    503 and 504 (a 404, say) ends the loop at once: the error is thrown
    as it came, after exactly one attempt, with no warning, no random
    draw and no sleep. *)
Theorem C5_terminal_failure_not_retried
    (cfg : Config) (env : Env) (url : string) (maxRetries : Z) (w : World)
    (fuel : nat) (err : JsError) (status : Z) :
  upstream env (axios_calls w) = Rejected err ->
  err_response err = Some status ->
  status <> 502 -> status <> 503 -> status <> 504 ->
  exists w',
    fetchWithRetries cfg env (S fuel) url maxRetries w = (Threw err, w') /\
    isGateway err = false /\
    attempts_between w w' = 1%nat /\
    sleeps_between w w' = 0%nat /\
    random_calls w' = random_calls w /\
    log w' = EvAxiosGet url (REQUEST_TIMEOUT cfg) :: log w.
Proof.
  intros Hup Hstatus H502 H503 H504.
  assert (Hgw : isGateway err = false).
  { unfold isGateway. rewrite Hstatus. cbn.
    rewrite !orb_false_r.
    repeat (apply orb_false_iff; split); apply Z.eqb_neq; assumption. }
  exists (after_attempt cfg env url w). unfold fetchWithRetries.
  erewrite retry_loop_final; [| lia | exact Hup | rewrite Hgw; reflexivity].
  unfold attempts_between, sleeps_between. rewrite count_sleep_attempt. cbn.
  repeat split; solve [assumption | lia].
Qed.

Lemma C5_terminal_witness :
  exists w',
    fetchWithRetries default_config
      (scripted [] (Rejected error_404) one_half rendering_browser)
      1 "u" 5 initial_world = (Threw error_404, w') /\
    isGateway error_404 = false /\
    attempts_between initial_world w' = 1%nat /\
    sleeps_between initial_world w' = 0%nat /\
    random_calls w' = random_calls initial_world /\
    log w' = EvAxiosGet "u" (REQUEST_TIMEOUT default_config) :: log initial_world.
Proof.
  apply (C5_terminal_failure_not_retried default_config
           (scripted [] (Rejected error_404) one_half rendering_browser)
           "u" 5 initial_world 0 error_404 404);
    [reflexivity | reflexivity | lia | lia | lia].
Defined.

(** C9, as stated, fails: [attempt] is a double, and [attempt++] leaves
    2^53 as it is.  With [maxRetries = 2^53] the test
    [attempt > maxRetries] is never met, so against an upstream that keeps
    answering 503 the loop goes on for ever: no amount of fuel lets it
    return or throw, and all of the fuel goes into attempts. *)
Lemma C9_counterexample_budget_beyond_counter_never_ends :
  let env := scripted [] (Rejected error_503) one_half rendering_browser in
  0 <= 2 ^ 53 /\
  next_attempt (2 ^ 53) = 2 ^ 53 /\
  (forall i, upstream env i = Rejected error_503) /\
  (forall fuel w,
     let run := fetchWithRetries default_config env fuel "u" (2 ^ 53) w in
     fst run = OutOfFuel /\ attempts_between w (snd run) = fuel).
Proof.
  intros env. split; [lia |]. split; [apply next_attempt_stuck |].
  assert (Hup : forall i, upstream env i = Rejected error_503).
  { intros i. subst env. unfold scripted. cbn [upstream].
    destruct i; reflexivity. }
  split; [exact Hup |].
  intros fuel w run. subst run. unfold fetchWithRetries, attempts_between.
  destruct (retry_loop_never_ends default_config env fuel "u" (2 ^ 53) 0 w)
    as [Hout Hcalls]; [lia | lia | |].
  - intros i. exists error_503. split; [apply Hup | reflexivity].
  - split; [exact Hout |]. rewrite Hcalls. lia.
Qed.

(** C9, amended.  For a nonnegative [maxRetries] below 2^53 the loop
    always ends: fuel beyond [maxRetries] is never exhausted, between one
    and [maxRetries + 1] attempts are made, and the loop either returns
    the first success or throws the last failure, which is then terminal
    or was the [maxRetries + 1]-th attempt; every earlier answer was a
    gateway failure. *)
Theorem C9_retry_loop_terminates
    (cfg : Config) (env : Env) (url : string) (maxRetries : Z) (w : World)
    (fuel : nat) :
  0 <= maxRetries ->
  maxRetries < 2 ^ 53 ->
  (Z.to_nat maxRetries < fuel)%nat ->
  exists c w',
    fetchWithRetries cfg env fuel url maxRetries w = (c, w') /\
    c <> OutOfFuel /\
    (1 <= attempts_between w w')%nat /\
    Z.of_nat (attempts_between w w') <= maxRetries + 1 /\
    match c with
    | Returned res => upstream env (pred (axios_calls w')) = Resolved res
    | Threw err =>
        upstream env (pred (axios_calls w')) = Rejected err /\
        (isGateway err = false \/
         Z.of_nat (attempts_between w w') = maxRetries + 1)
    | OutOfFuel => False
    end /\
    (forall i, (axios_calls w <= i)%nat -> (S i < axios_calls w')%nat ->
               transient (upstream env i) = true).
Proof.
  intros Hmr Hsmall Hfuel.
  destruct (fetchWithRetries cfg env fuel url maxRetries w) as [c w'] eqn:Hrun.
  exists c, w'. split; [reflexivity |].
  assert (Hnot : c <> OutOfFuel).
  { pose proof (retry_loop_terminates cfg env fuel url maxRetries 0 w) as Ht.
    unfold fetchWithRetries in Hrun. rewrite Hrun in Ht.
    apply Ht; [lia | exact Hsmall |].
    rewrite Z.sub_0_r. exact Hfuel. }
  apply fetchWithRetries_post in Hrun as [_ (Hend & Hearlier & Hbound)].
  specialize (Hbound Hsmall).
  unfold attempts_between in *.
  rewrite Z.max_r in Hbound by lia.
  split; [exact Hnot |].
  destruct c as [res | err |]; [| | contradiction].
  - destruct Hend as (Hlt & Hlast & _).
    repeat split; [lia | lia | exact Hlast |].
    intros i Hi1 Hi2. destruct (Hearlier i Hi1 Hi2) as (e & -> & Hg). exact Hg.
  - destruct Hend as (Hlt & Hlast & _ & Hwhy).
    repeat split; [lia | lia | exact Hlast | |].
    + destruct Hwhy as [Hg | Hex]; [now left | right; lia].
    + intros i Hi1 Hi2. destruct (Hearlier i Hi1 Hi2) as (e & -> & Hg). exact Hg.
Qed.

Lemma C9_termination_witness :
  exists c w',
    fetchWithRetries default_config
      (scripted [] (Rejected error_503) one_half rendering_browser)
      3 "u" 2 initial_world = (c, w') /\
    c <> OutOfFuel /\
    (1 <= attempts_between initial_world w')%nat /\
    Z.of_nat (attempts_between initial_world w') <= 2 + 1 /\
    match c with
    | Returned res =>
        upstream (scripted [] (Rejected error_503) one_half rendering_browser)
          (pred (axios_calls w')) = Resolved res
    | Threw err =>
        upstream (scripted [] (Rejected error_503) one_half rendering_browser)
          (pred (axios_calls w')) = Rejected err /\
        (isGateway err = false \/
         Z.of_nat (attempts_between initial_world w') = 2 + 1)
    | OutOfFuel => False
    end /\
    (forall i, (axios_calls initial_world <= i)%nat ->
               (S i < axios_calls w')%nat ->
               transient
                 (upstream (scripted [] (Rejected error_503) one_half
                              rendering_browser) i) = true).
Proof.
  apply (C9_retry_loop_terminates default_config
           (scripted [] (Rejected error_503) one_half rendering_browser)
           "u" 2 initial_world 3); lia.
Defined.

(** ** The back-off delay *)





(** ** Claims about the fallback *)

(** C7.  With the fallback enabled, when the cache misses, the primary
    strategy (run on the url of the roll) throws, whatever its error, and
    the browser fails as well, the request resolves to a failure whose
    [error] is the message of the browser's error, not of the
    primary's. *)
Theorem C7_secondary_failure_reason_returned
    (cfg : Config) (env : Env) (fuel : nat) (roll url : string)
    (w w1 : World) (err pwErr : JsError) :
  PLAYWRIGHT_FALLBACK cfg = true ->
  truthy_opt (ExpiringCache.peek (now w) (cacheKey_of roll) (cache w)) = false ->
  KTU_FETCH_URL_TEMPLATE roll = Some url ->
  fetchWithRetries cfg env fuel url (MAX_RETRIES cfg)
    (gate_entered env (after_check (cacheKey_of roll) w)) = (Threw err, w1) ->
  playwright_outcome (browser env (browser_calls w)) = Rejected pwErr ->
  exists w',
    fetchResultForRoll cfg env fuel roll w
    = (Returned (mkResult false None None None (Some (message_or_string pwErr))),
       w') /\
    browser_calls w' = S (browser_calls w).
Proof.
  intros Hfb Hmiss Hurl Hprimary Hpw.
  rewrite (fetchResultForRoll_miss _ _ _ _ _ _ Hmiss Hurl).
  destruct (fetchResultForRoll_task cfg env fuel roll (cacheKey_of roll)
              url
              (gate_entered env (after_check (cacheKey_of roll) w)))
    as [c w2] eqn:Htask.
  apply fetchResultForRoll_task_inv in Htask
    as (c1 & w1' & w3 & Hprimary' & Hres & Hworld).
  rewrite Hprimary in Hprimary'. injection Hprimary' as <- <-.
  unfold task_result, task_world in *. rewrite Hfb in *.
  cbn [browser_calls gate_entered after_check suspend emit set_cache] in *.
  rewrite Hpw in *. subst c.
  destruct Hworld as [(_ & _ & _ & Hb & _) ->].
  apply fetchWithRetries_post in Hprimary as [(_ & Hb1 & _) _].
  eexists. split; [reflexivity |].
  cbn in *. congruence.
Qed.

Lemma C7_secondary_failure_witness :
  exists w',
    fetchResultForRoll fallback_config
      (scripted [] (Rejected error_404) one_half failing_browser)
      1 "R1" initial_world
    = (Returned
         (mkResult false None None None
            (Some "browserType.launch: Executable doesn't exist")), w') /\
    browser_calls w' = 1%nat.
Proof.
  eapply (C7_secondary_failure_reason_returned fallback_config
            (scripted [] (Rejected error_404) one_half failing_browser)
            1 "R1" _ initial_world _ error_404 browser_crash);
    reflexivity.
Defined.

(** C8.  A successful result of a request that used the browser carries
    the marker header [x-playwright-fallback: 1], which is how a result of
    the secondary strategy is told from one of the primary strategy. *)
Theorem C8_fallback_result_is_tagged
    (cfg : Config) (env : Env) (fuel : nat) (roll : string) (w w' : World)
    (r : Result) :
  fetchResultForRoll cfg env fuel roll w = (Returned r, w') ->
  ok r = true ->
  browser_calls w' <> browser_calls w ->
  servedByFallback r = true /\
  headers r = Some playwright_marker /\
  fromCache r = Some false.
Proof.
  intros Hrun Hok Hused.
  apply fetchResultForRoll_inv in Hrun
    as [(v & _ & _ & _ & ->)
       | [(_ & _ & [=] & _)
         | (_ & url & c1 & w1 & w3 & w2 & _ & Hprimary & Hres & Hworld & ->)]].
  - exfalso. apply Hused. reflexivity.
  - apply fetchWithRetries_post in Hprimary as [(_ & Hb1 & _) _].
    cbn [browser_calls gate_entered after_check suspend emit set_cache] in *.
    unfold task_result, task_world in *.
    destruct c1 as [resp | err |]; [| | discriminate].
    + exfalso. apply Hused. subst w2. cbn. exact Hb1.
    + destruct (PLAYWRIGHT_FALLBACK cfg).
      * destruct (playwright_outcome (browser env (browser_calls w)))
          as [pwResp | pwErr] eqn:Hpw.
        -- injection Hres as ->.
           apply playwright_outcome_resolved in Hpw.
           unfold servedByFallback, fetched. cbn. rewrite Hpw. repeat split.
        -- injection Hres as ->. discriminate.
      * exfalso. apply Hused. subst w2. cbn. exact Hb1.
Qed.

Lemma C8_fallback_result_witness :
  servedByFallback
    (mkResult true (Some false) (Some (JString "<html>rendered</html>"))
       (Some playwright_marker) None) = true /\
  headers
    (mkResult true (Some false) (Some (JString "<html>rendered</html>"))
       (Some playwright_marker) None) = Some playwright_marker /\
  fromCache
    (mkResult true (Some false) (Some (JString "<html>rendered</html>"))
       (Some playwright_marker) None) = Some false.
Proof.
  eapply (C8_fallback_result_is_tagged fallback_config
            (scripted [] (Rejected error_404) one_half rendering_browser)
            1 "R1" initial_world _ _);
    [reflexivity | reflexivity | cbn; lia].
Defined.

(** C2, as stated, fails: with the fallback enabled and a budget of five
    retries, a single 404 (a terminal failure, never retried) is enough
    for the browser to be used, after one attempt only. *)
Lemma C2_counterexample_fallback_after_terminal_404 :
  let env := scripted [] (Rejected error_404) one_half rendering_browser in
  let run := fetchResultForRoll fallback_config env 6 "R1" initial_world in
  browser_calls (snd run) = 1%nat /\
  count_events is_playwright (log (snd run)) = 1%nat /\
  attempts_between initial_world (snd run) = 1%nat /\
  Z.of_nat (attempts_between initial_world (snd run))
    < MAX_RETRIES fallback_config + 1 /\
  upstream env 0 = Rejected error_404 /\
  transient (upstream env 0) = false.
Proof. vm_compute. repeat split. Qed.

(** C2, amended.  The browser is used at most once per request, and only
    when the fallback is enabled, the cache missed and the primary
    strategy has thrown, be it a terminal failure or a gateway failure
    that used up the retry budget.  When the fallback is disabled the
    browser is never used and a failed request reports the primary's
    error. *)
Theorem C2_fallback_only_after_primary_failed
    (cfg : Config) (env : Env) (fuel : nat) (roll : string) (w w' : World)
    (c : Completion Result) :
  fetchResultForRoll cfg env fuel roll w = (c, w') ->
  (browser_calls w' = browser_calls w \/ browser_calls w' = S (browser_calls w))
  /\
  (browser_calls w' = S (browser_calls w) ->
   PLAYWRIGHT_FALLBACK cfg = true /\
   truthy_opt (ExpiringCache.peek (now w) (cacheKey_of roll) (cache w)) = false /\
   exists url err w1,
     KTU_FETCH_URL_TEMPLATE roll = Some url /\
     fetchWithRetries cfg env fuel url
       (MAX_RETRIES cfg) (gate_entered env (after_check (cacheKey_of roll) w))
     = (Threw err, w1) /\
     axios_calls w' = axios_calls w1 /\
     upstream env (pred (axios_calls w')) = Rejected err /\
     (isGateway err = false \/
      MAX_RETRIES cfg < Z.of_nat (attempts_between w w')))
  /\
  (PLAYWRIGHT_FALLBACK cfg = false ->
   browser_calls w' = browser_calls w /\
   forall r, c = Returned r -> ok r = false ->
     exists err,
       upstream env (pred (axios_calls w')) = Rejected err /\
       error r = Some (message_or_string err)).
Proof.
  intros Hrun.
  apply fetchResultForRoll_inv in Hrun
    as [(v & Hpeek & Htruthy & -> & ->)
       | [(Hmiss & _ & -> & ->)
         | (Hmiss & url & c1 & w1 & w3 & w2 & Hurl & Hprimary & Hres & Hworld
            & ->)]].
  - cbn. repeat split; try (now left); try lia.
    intros r [= <-]. discriminate.
  - cbn. repeat split; try (now left); try lia.
    intros r [=].
  - pose proof (fetchWithRetries_post _ _ _ _ _ _ _ _ Hprimary)
      as [(_ & Hb1 & _) (Hend & _ & _)].
    unfold task_result, task_world, attempts_between in *.
    cbn [browser_calls axios_calls gate_entered after_check suspend emit
         set_cache] in *.
    destruct c1 as [resp | err |].
    + subst c w2. cbn. repeat split; try (now left); try lia.
      intros r [= <-]. discriminate.
    + destruct Hend as (Hlt & Hlast & _ & Hwhy).
      destruct (PLAYWRIGHT_FALLBACK cfg) eqn:Hfb.
      * destruct Hworld as [(_ & Ha3 & _ & Hb3 & _) Hw2].
        cbn [browser_calls axios_calls emit] in *.
        assert (Hbc : browser_calls w2 = S (browser_calls w) /\
                      axios_calls w2 = axios_calls w1).
        { destruct (playwright_outcome (browser env (browser_calls w)));
            subst w2; cbn; split; congruence. }
        destruct Hbc as [Hbc Hac].
        assert (Hbc' : browser_calls
                         match c with
                         | OutOfFuel => w2
                         | _ => emit EvGateExit w2
                         end = S (browser_calls w))
          by (destruct c; exact Hbc).
        assert (Hac' : axios_calls
                         match c with
                         | OutOfFuel => w2
                         | _ => emit EvGateExit w2
                         end = axios_calls w1)
          by (destruct c; exact Hac).
        rewrite Hbc', Hac'.
        split; [now right |]. split; [| discriminate].
        intros _. split; [reflexivity |]. split; [exact Hmiss |].
        exists url, err, w1. repeat split; assumption.
      * subst c w2. cbn. split; [left; congruence |].
        split; [intros Hs; rewrite Hb1 in Hs; lia |].
        intros _. split; [exact Hb1 |].
        intros r [= <-] _. exists err. split; [exact Hlast | reflexivity].
    + subst c w2. split; [left; exact Hb1 |].
      split; [intros Hs; rewrite Hb1 in Hs; lia |].
      intros _. split; [exact Hb1 |]. intros r [=].
Qed.

Lemma C2_fallback_witness :
  let env := scripted [] (Rejected error_404) one_half rendering_browser in
  let run := fetchResultForRoll fallback_config env 6 "R1" initial_world in
  PLAYWRIGHT_FALLBACK fallback_config = true /\
  truthy_opt
    (ExpiringCache.peek (now initial_world) (cacheKey_of "R1")
       (cache initial_world)) = false /\
  exists url err w1,
    KTU_FETCH_URL_TEMPLATE "R1" = Some url /\
    fetchWithRetries fallback_config env 6 url
      (MAX_RETRIES fallback_config)
      (gate_entered env (after_check (cacheKey_of "R1") initial_world))
    = (Threw err, w1) /\
    axios_calls (snd run) = axios_calls w1 /\
    upstream env (pred (axios_calls (snd run))) = Rejected err /\
    (isGateway err = false \/
     MAX_RETRIES fallback_config
     < Z.of_nat (attempts_between initial_world (snd run))).
Proof.
  intros env run.
  destruct (C2_fallback_only_after_primary_failed fallback_config env 6 "R1"
              initial_world (snd run) (fst run) (surjective_pairing run))
    as (_ & Hused & _).
  apply Hused. reflexivity.
Defined.

(** ** Claims about the cache *)

Lemma task_world_frame cfg env roll key w c1 w1 w3 w2 :
  task_world cfg env roll key w c1 w1 w3 w2 ->
  axios_calls w2 = axios_calls w1 /\ now w1 <= now w2.
Proof.
  unfold task_world. destruct c1 as [resp | err |].
  - intros ->. cbn. split; [reflexivity | lia].
  - destruct (PLAYWRIGHT_FALLBACK cfg).
    + intros [(_ & Ha & _ & _ & Hn & _) Hw2]. cbn in Ha, Hn.
      destruct (playwright_outcome _); subst w2; cbn; split; (congruence || lia).
    + intros ->. cbn. split; [reflexivity | lia].
  - intros ->. split; [reflexivity | lia].
Qed.

(** C4.  A request that resolves to a failure has written nothing to the
    cache: no [cache.set] was performed and every later read of any key
    answers as it would have before.  So the next request for the same
    roll finds nothing it can serve from the cache, goes through the gate
    and makes a fresh upstream attempt; what it returns is not a cached
    result. *)
Theorem C4_failed_request_is_not_cached
    (cfg : Config) (env : Env) (fuel : nat) (roll : string) (w w' : World)
    (r : Result) :
  fetchResultForRoll cfg env fuel roll w = (Returned r, w') ->
  ok r = false ->
  count_events is_cache_write (log w') = count_events is_cache_write (log w) /\
  (forall key t, now w <= t ->
     ExpiringCache.peek t key (cache w') = ExpiringCache.peek t key (cache w)) /\
  truthy_opt (ExpiringCache.peek (now w') (cacheKey_of roll) (cache w')) = false /\
  forall fuel2 c2 w2,
    fetchResultForRoll cfg env (S fuel2) roll w' = (c2, w2) ->
    (axios_calls w' < axios_calls w2)%nat /\
    forall r2, c2 = Returned r2 -> fromCache r2 <> Some true.
Proof.
  intros Hrun Hok.
  apply fetchResultForRoll_inv in Hrun
    as [(v & _ & _ & [= ->] & _)
       | [(_ & _ & [=] & _)
         | (Hmiss & url & c1 & w1 & w3 & w2 & Hurl & Hprimary & Hres & Hworld
            & ->)]];
    [discriminate |].
  apply fetchWithRetries_post in Hprimary
    as [(Hc1 & _ & Hn1 & _ & _ & evs & Hl1 & Hevs & _) _].
  cbn [cache now log gate_entered after_check suspend emit set_cache] in *.
  assert (Hshape :
    cache w2 = cache w1 /\ now w1 <= now w2 /\
    exists evs2, log w2 = (evs2 ++ log w1)%list /\
                 count_events is_cache_write evs2 = 0%nat).
  { unfold task_result, task_world in *.
    destruct c1 as [resp | err |]; [injection Hres as ->; discriminate | |
                                    discriminate].
    destruct (PLAYWRIGHT_FALLBACK cfg).
    - destruct Hworld as [(Hc3 & _ & _ & _ & Hn3 & evs3 & Hl3 & Hevs3) Hw2].
      cbn [cache now log emit] in *.
      destruct (playwright_outcome (browser env (browser_calls w)))
        as [pwResp | pwErr]; [injection Hres as ->; discriminate |].
      subst w2. cbn [cache now log emit]. repeat split; [congruence | lia |].
      exists (EvErrorFallbackFailed (message_or_string pwErr)
              :: evs3 ++ [EvWarnDirectFailed roll (message_or_string err)])%list.
      split.
      + rewrite Hl3. cbn. rewrite <- app_assoc. reflexivity.
      + change (EvErrorFallbackFailed (message_or_string pwErr)
                :: evs3 ++ [EvWarnDirectFailed roll (message_or_string err)])%list
          with ([EvErrorFallbackFailed (message_or_string pwErr)] ++
                evs3 ++ [EvWarnDirectFailed roll (message_or_string err)])%list.
        rewrite !count_events_app.
        rewrite (count_events_excluded is_browser_event is_cache_write evs3);
          [reflexivity | intros []; (discriminate || reflexivity) | exact Hevs3].
    - subst w2. cbn [cache now log emit]. repeat split; [lia |].
      exists [EvWarnDirectFailed roll (message_or_string err)].
      split; reflexivity. }
  destruct Hshape as (Hc2 & Hn2 & evs2 & Hl2 & Hevs2).
  cbn [cache now log emit].
  assert (Hnow : now w <= now w2) by lia.
  assert (Hpeek : forall key t, now w <= t ->
            ExpiringCache.peek t key (cache w2) = ExpiringCache.peek t key (cache w)).
  { intros key t Ht. rewrite Hc2, Hc1. apply peek_after_get. exact Ht. }
  assert (Hmiss2 :
    truthy_opt (ExpiringCache.peek (now w2) (cacheKey_of roll) (cache w2)) = false).
  { rewrite Hpeek by exact Hnow. eapply miss_persists; eassumption. }
  split; [| split; [exact Hpeek | split; [exact Hmiss2 |]]].
  - rewrite Hl2, Hl1.
    change (EvGateExit :: (evs2 ++ evs ++ EvGateEnter
                             :: EvCacheGet (cacheKey_of roll) :: log w))%list
      with ([EvGateExit] ++ evs2 ++ evs ++
            [EvGateEnter; EvCacheGet (cacheKey_of roll)] ++ log w)%list.
    rewrite !count_events_app, Hevs2.
    rewrite (count_events_excluded is_retry_event is_cache_write evs);
      [reflexivity | intros []; (discriminate || reflexivity) | exact Hevs].
  - intros fuel2 c2 w4 Hnext.
    erewrite fetchResultForRoll_miss in Hnext
      by first [exact Hmiss2 | exact Hurl].
    destruct (fetchResultForRoll_task cfg env (S fuel2) roll (cacheKey_of roll)
                url _) as [c3 w5] eqn:Htask.
    apply fetchResultForRoll_task_inv in Htask
      as (c4 & w6 & w7 & Hprimary2 & Hres2 & Hworld2).
    apply retry_loop_attempts_once in Hprimary2; [| lia].
    apply task_world_frame in Hworld2 as [Ha5 _].
    cbn [axios_calls gate_entered after_check suspend emit set_cache] in *.
    assert (Hlt : (axios_calls w2 < axios_calls w5)%nat) by lia.
    assert (Hfresh : forall r2, c3 = Returned r2 -> fromCache r2 <> Some true).
    { intros r2 ->. unfold task_result in Hres2.
      destruct c4 as [resp | err |]; [injection Hres2 as -> | | discriminate].
      - discriminate.
      - destruct (PLAYWRIGHT_FALLBACK cfg);
          [destruct (playwright_outcome _) |];
          injection Hres2 as ->; discriminate. }
    destruct c3; injection Hnext as <- <-; (split; [exact Hlt | exact Hfresh]).
Qed.

Lemma C4_failed_request_witness :
  let env := scripted [] (Rejected error_404) one_half rendering_browser in
  let run := fetchResultForRoll default_config env 1 "R1" initial_world in
  count_events is_cache_write (log (snd run))
  = count_events is_cache_write (log initial_world) /\
  (forall key t, now initial_world <= t ->
     ExpiringCache.peek t key (cache (snd run))
     = ExpiringCache.peek t key (cache initial_world)) /\
  truthy_opt
    (ExpiringCache.peek (now (snd run)) (cacheKey_of "R1") (cache (snd run)))
  = false /\
  forall fuel2 c2 w2,
    fetchResultForRoll default_config env (S fuel2) "R1" (snd run) = (c2, w2) ->
    (axios_calls (snd run) < axios_calls w2)%nat /\
    forall r2, c2 = Returned r2 -> fromCache r2 <> Some true.
Proof.
  intros env run.
  apply (C4_failed_request_is_not_cached default_config env 1 "R1"
           initial_world (snd run)
           (failed "Request failed with status code 404")); reflexivity.
Defined.

(** C6 does not hold for a cached value that is falsy.  An upstream
    answer with an empty body is stored by [cache.set] like any other;
    the entry is live when the next request for the roll arrives, yet
    [if (cached)] rejects the empty string, so that request goes through
    the gate and contacts the upstream again.  (For a cached value that
    is truthy the claim holds: see [fetchResultForRoll_hit].) *)
Theorem C6_cached_empty_body_is_fetched_again :
  let env := scripted [] (Resolved empty_page) one_half rendering_browser in
  let first := fetchResultForRoll default_config env 6 "R1" initial_world in
  let second := fetchResultForRoll default_config env 6 "R1" (snd first) in
  fst first = Returned (fetched (JString "") (resp_headers empty_page)) /\
  ExpiringCache.peek (now (snd first)) (cacheKey_of "R1") (cache (snd first))
  = Some (JString "") /\
  fst second = Returned (fetched (JString "") (resp_headers empty_page)) /\
  fromCache (fetched (JString "") (resp_headers empty_page)) = Some false /\
  attempts_between (snd first) (snd second) = 1%nat /\
  count_events is_gate (log (snd second))
  = (count_events is_gate (log (snd first)) + 2)%nat.
Proof. vm_compute. repeat split. Qed.

(** C10, as stated, fails: of two overlapping requests for one roll that
    both missed the cache, each performs its own fetch and each result
    has a [headers] field, although the second fetch ends well within
    the lifetime of the entry the first one stored. *)
Lemma C10_counterexample_overlapping_requests_both_have_headers :
  let env := scripted [] (Resolved result_page) one_half rendering_browser in
  let run := overlapping_requests serial_config env 6 "R1" initial_world in
  let r := fetched (resp_data result_page) (resp_headers result_page) in
  fst run = Returned (r, r) /\
  ok r = true /\
  headers r = Some [("content-type", "text/html")] /\
  count_events is_attempt (log (snd run)) = 2%nat /\
  count_events is_cache_write (log (snd run)) = 2%nat /\
  now (snd run) < now initial_world + CACHE_TTL serial_config * 1000.
Proof. vm_compute. repeat split. Qed.

(** C10, amended.  A successful request either was answered from the
    cache, and then its result has no [headers] field, equals the cached
    body and nothing was fetched or stored; or it performed a fetch of its
    own, and then its result has a [headers] field and the body, and only
    the body, was stored under the roll's key with a fresh age. *)
Theorem C10_headers_exactly_on_own_fetch
    (cfg : Config) (env : Env) (fuel : nat) (roll : string) (w w' : World)
    (r : Result) :
  fetchResultForRoll cfg env fuel roll w = (Returned r, w') ->
  ok r = true ->
  (fromCache r = Some true /\
   headers r = None /\
   data r = ExpiringCache.peek (now w) (cacheKey_of roll) (cache w) /\
   attempts_between w w' = 0%nat /\
   browser_calls w' = browser_calls w /\
   count_events is_cache_write (log w') = count_events is_cache_write (log w))
  \/
  (fromCache r = Some false /\
   (exists h, headers r = Some h) /\
   (1 <= attempts_between w w')%nat /\
   exists body t,
     data r = Some body /\
     now w <= t <= now w' /\
     cache w' !! cacheKey_of roll
     = Some (ExpiringCache.mkEntry body t (CACHE_TTL cfg * 1000)) /\
     count_events is_cache_write (log w')
     = S (count_events is_cache_write (log w))).
Proof.
  intros Hrun Hok.
  apply fetchResultForRoll_inv in Hrun
    as [(v & Hpeek & _ & [= ->] & ->)
       | [(_ & _ & [=] & _)
         | (_ & url & c1 & w1 & w3 & w2 & _ & Hprimary & Hres & Hworld & ->)]].
  - left. unfold attempts_between. cbn. rewrite Hpeek.
    repeat split; lia.
  - right.
    apply fetchWithRetries_post in Hprimary
      as [(_ & _ & Hn1 & _ & _ & evs & Hl1 & Hevs & _) (Hend & _ & _)].
    assert (Hevs0 : count_events is_cache_write evs = 0%nat).
    { apply (count_events_excluded is_retry_event); [| exact Hevs].
      intros []; (discriminate || reflexivity). }
    unfold task_result, task_world, attempts_between in *.
    cbn [now log axios_calls gate_entered after_check suspend emit set_cache
         next_axios] in *.
    destruct c1 as [resp | err |]; [| | discriminate].
    + injection Hres as ->. subst w2. destruct Hend as (Hlt & _).
      cbn [fromCache headers data fetched now log axios_calls cache after_store
           emit set_cache].
      repeat split; [eauto | lia |].
      exists (resp_data resp), (now w1). repeat split; try lia.
      * unfold ExpiringCache.set. apply lookup_insert_eq.
      * rewrite Hl1.
        change (EvGateExit :: EvCacheSet (cacheKey_of roll) (resp_data resp)
                  :: evs ++ EvGateEnter :: EvCacheGet (cacheKey_of roll) :: log w)%list
          with ([EvGateExit; EvCacheSet (cacheKey_of roll) (resp_data resp)] ++
                evs ++ [EvGateEnter; EvCacheGet (cacheKey_of roll)] ++ log w)%list.
        rewrite !count_events_app, Hevs0. reflexivity.
    + destruct Hend as (Hlt & _).
      destruct (PLAYWRIGHT_FALLBACK cfg); [| injection Hres as ->; discriminate].
      destruct Hworld as [(_ & Ha3 & _ & _ & Hn3 & evs3 & Hl3 & Hevs3) Hw2].
      assert (Hevs30 : count_events is_cache_write evs3 = 0%nat).
      { apply (count_events_excluded is_browser_event); [| exact Hevs3].
        intros []; (discriminate || reflexivity). }
      cbn [now log axios_calls emit] in *.
      destruct (playwright_outcome (browser env (browser_calls w)))
        as [pwResp | pwErr]; [| injection Hres as ->; discriminate].
      injection Hres as ->. subst w2.
      cbn [fromCache headers data fetched now log axios_calls cache after_store
           emit set_cache].
      repeat split; [eauto | lia |].
      exists (resp_data pwResp), (now w3). repeat split; try lia.
      * unfold ExpiringCache.set. apply lookup_insert_eq.
      * rewrite Hl3, Hl1.
        change (EvGateExit :: EvCacheSet (cacheKey_of roll) (resp_data pwResp)
                  :: evs3 ++ EvWarnDirectFailed roll (message_or_string err)
                  :: evs ++ EvGateEnter :: EvCacheGet (cacheKey_of roll) :: log w)%list
          with ([EvGateExit; EvCacheSet (cacheKey_of roll) (resp_data pwResp)] ++
                evs3 ++ [EvWarnDirectFailed roll (message_or_string err)] ++
                evs ++ [EvGateEnter; EvCacheGet (cacheKey_of roll)] ++ log w)%list.
        rewrite !count_events_app, Hevs0, Hevs30. reflexivity.
Qed.

Lemma C10_headers_witness :
  let env := scripted [] (Resolved result_page) one_half rendering_browser in
  let run := fetchResultForRoll default_config env 6 "R1" initial_world in
  let r := fetched (resp_data result_page) (resp_headers result_page) in
  (fromCache r = Some true /\
   headers r = None /\
   data r = ExpiringCache.peek (now initial_world) (cacheKey_of "R1")
              (cache initial_world) /\
   attempts_between initial_world (snd run) = 0%nat /\
   browser_calls (snd run) = browser_calls initial_world /\
   count_events is_cache_write (log (snd run))
   = count_events is_cache_write (log initial_world))
  \/
  (fromCache r = Some false /\
   (exists h, headers r = Some h) /\
   (1 <= attempts_between initial_world (snd run))%nat /\
   exists body t,
     data r = Some body /\
     now initial_world <= t <= now (snd run) /\
     cache (snd run) !! cacheKey_of "R1"
     = Some (ExpiringCache.mkEntry body t (CACHE_TTL default_config * 1000)) /\
     count_events is_cache_write (log (snd run))
     = S (count_events is_cache_write (log initial_world))).
Proof.
  intros env run r.
  apply (C10_headers_exactly_on_own_fetch default_config env 6 "R1"
           initial_world (snd run) r); reflexivity.
Defined.

(** * Further properties *)

(** ** More on the retry loop *)

Section RetryLoopCounts.

Variable cfg : Config.
Variable env : Env.

Lemma retry_loop_success_after url mr res (k : nat) : forall fuel a w,
  0 <= a <= 2 ^ 53 ->
  Z.min (a + Z.of_nat k) (2 ^ 53) <= mr ->
  (k < fuel)%nat ->
  transient_run env (axios_calls w) k = true ->
  upstream env (axios_calls w + k) = Resolved res ->
  exists w',
    retry_loop cfg env fuel url mr a w = (Returned res, w') /\
    axios_calls w' = (axios_calls w + S k)%nat /\
    count_events is_sleep (log w') = (count_events is_sleep (log w) + k)%nat.
Proof.
  induction k as [| k IH]; intros fuel a w Ha Hbudget Hfuel Hrun Hok;
    (destruct fuel as [| fuel]; [lia |]).
  - rewrite Nat.add_0_r in Hok.
    erewrite retry_loop_resolved by exact Hok.
    eexists. split; [reflexivity |]. rewrite count_sleep_attempt. cbn. lia.
  - cbn [transient_run] in Hrun. apply andb_true_iff in Hrun as [Hfirst Hrest].
    apply transient_inv in Hfirst as (err & Hup & Hgw).
    pose proof (next_attempt_min a Ha) as Hnext.
    erewrite retry_loop_next by (eassumption || lia).
    destruct (IH fuel (next_attempt a)
                (after_backoff cfg env (next_attempt a)
                   (after_attempt cfg env url w)))
      as (w' & Heq & Hcalls & Hsleeps).
    + lia.
    + lia.
    + lia.
    + exact Hrest.
    + cbn [axios_calls after_backoff after_attempt suspend emit next_axios
           next_random].
      rewrite Nat.add_succ_comm. exact Hok.
    + exists w'. split; [exact Heq |].
      rewrite Hcalls, Hsleeps, count_sleep_backoff, count_sleep_attempt.
      cbn [axios_calls after_backoff after_attempt suspend emit next_axios
           next_random].
      lia.
Qed.

Lemma retry_loop_budget_spent url mr (b : nat) : forall fuel a w,
  0 <= a <= 2 ^ 53 ->
  mr < 2 ^ 53 ->
  Z.to_nat (mr - a) = b ->
  (b < fuel)%nat ->
  transient_run env (axios_calls w) (S b) = true ->
  exists w',
    retry_loop cfg env fuel url mr a w
    = (completion_of (upstream env (axios_calls w + b)), w') /\
    axios_calls w' = (axios_calls w + S b)%nat /\
    count_events is_sleep (log w') = (count_events is_sleep (log w) + b)%nat.
Proof.
  induction b as [| b IH]; intros fuel a w Ha Hmr Hleft Hfuel Hrun;
    (destruct fuel as [| fuel]; [lia |]);
    cbn [transient_run] in Hrun; apply andb_true_iff in Hrun as [Hfirst Hrest];
    apply transient_inv in Hfirst as (err & Hup & Hgw).
  - rewrite Nat.add_0_r, Hup.
    pose proof (next_attempt_min a Ha) as Hnext.
    erewrite retry_loop_last; [| exact Hup |].
    + eexists. split; [reflexivity |]. rewrite count_sleep_attempt. cbn. lia.
    + apply orb_true_iff. right. apply Z.gtb_lt. lia.
  - erewrite retry_loop_again by (eassumption || lia).
    destruct (IH fuel (a + 1)
                (after_backoff cfg env (a + 1) (after_attempt cfg env url w)))
      as (w' & Heq & Hcalls & Hsleeps).
    + lia.
    + exact Hmr.
    + lia.
    + lia.
    + exact Hrest.
    + exists w'.
      cbn [axios_calls after_backoff after_attempt suspend emit next_axios
           next_random] in Heq, Hcalls.
      rewrite Nat.add_succ_comm in Heq.
      split; [exact Heq |].
      rewrite Hcalls, Hsleeps, count_sleep_backoff, count_sleep_attempt. lia.
Qed.

Lemma retry_loop_paced url mr fuel : forall a w c w',
  0 <= a <= 2 ^ 53 ->
  retry_loop cfg env fuel url mr a w = (c, w') ->
  c <> OutOfFuel ->
  exists tail,
    log w' = (rev (EvAxiosGet url (REQUEST_TIMEOUT cfg) :: tail) ++ log w)%list /\
    paced (next_attempt a) tail = true.
Proof.
  induction fuel as [| fuel IH]; intros a w c w' Ha Hrun Hc.
  - cbn in Hrun. injection Hrun as <- <-. contradiction.
  - pose proof (next_attempt_min a Ha) as Hnext.
    destruct (upstream env (axios_calls w)) as [res | err] eqn:Hup.
    + erewrite retry_loop_resolved in Hrun by exact Hup.
      injection Hrun as <- <-. exists []. split; reflexivity.
    + destruct (negb (isGateway err) || (next_attempt a >? mr)) eqn:Hfinal.
      * erewrite retry_loop_last in Hrun by eassumption.
        injection Hrun as <- <-. exists []. split; reflexivity.
      * apply orb_false_iff in Hfinal as [Hg Hle].
        apply negb_false_iff in Hg. rewrite Z.gtb_ltb in Hle.
        apply Z.ltb_ge in Hle.
        erewrite retry_loop_next in Hrun by eassumption.
        apply IH in Hrun as (tail & Hlog & Hpaced); [| lia | exact Hc].
        set (w0 := after_attempt cfg env url w) in *.
        exists (EvWarnRetry (next_attempt a) (wait_in cfg env (next_attempt a) w0)
                :: EvSleep (wait_in cfg env (next_attempt a) w0)
                :: EvAxiosGet url (REQUEST_TIMEOUT cfg) :: tail).
        split.
        -- rewrite Hlog. cbn [log after_backoff after_attempt suspend emit
                               next_random next_axios rev].
           subst w0. cbn [log after_attempt suspend emit next_axios].
           rewrite <- !app_assoc. reflexivity.
        -- cbn [paced]. rewrite !Z.eqb_refl. exact Hpaced.
Qed.

End RetryLoopCounts.

Lemma transient_run_nth env (k : nat) : forall n i,
  transient_run env n k = true -> (i < k)%nat ->
  transient (upstream env (n + i)) = true.
Proof.
  induction k as [| k IH]; intros n i Hrun Hi; [lia |].
  cbn [transient_run] in Hrun. apply andb_true_iff in Hrun as [Hfirst Hrest].
  destruct i as [| i].
  - rewrite Nat.add_0_r. exact Hfirst.
  - rewrite <- Nat.add_succ_comm. apply IH; [exact Hrest | lia].
Qed.

(** X1.  When the next [k] upstream answers are gateway failures
    (a status of 502, 503 or 504, or no response at all), [k] is within
    the retry budget and the answer after them is a success, the loop
    returns that success after exactly [k + 1] attempts and [k] sleeps. *)
Theorem retries_until_first_success
    (cfg : Config) (env : Env) (url : string) (maxRetries : Z) (w : World)
    (fuel k : nat) (res : Response) :
  Z.of_nat k <= maxRetries ->
  (k < fuel)%nat ->
  transient_run env (axios_calls w) k = true ->
  upstream env (axios_calls w + k) = Resolved res ->
  exists w',
    fetchWithRetries cfg env fuel url maxRetries w = (Returned res, w') /\
    attempts_between w w' = S k /\
    sleeps_between w w' = k.
Proof.
  intros Hbudget Hfuel Hrun Hok.
  destruct (retry_loop_success_after cfg env url maxRetries res k fuel 0 w)
    as (w' & Heq & Hcalls & Hsleeps); try assumption; try lia.
  exists w'. unfold attempts_between, sleeps_between.
  split; [exact Heq | split; lia].
Qed.

Lemma retries_until_first_success_witness :
  exists w',
    fetchWithRetries default_config
      (scripted [Rejected error_503; Rejected error_503; Rejected error_503]
                (Resolved result_page) one_half rendering_browser)
      4 "u" 5 initial_world = (Returned result_page, w') /\
    attempts_between initial_world w' = 4%nat /\
    sleeps_between initial_world w' = 3%nat.
Proof.
  apply (retries_until_first_success default_config
           (scripted [Rejected error_503; Rejected error_503; Rejected error_503]
                     (Resolved result_page) one_half rendering_browser)
           "u" 5 initial_world 4 3 result_page);
    [lia | lia | reflexivity | reflexivity].
Defined.

(** X2.  For a budget below 2^53 (the largest value the counter
    reaches): when the next [r + 1] upstream answers are all gateway
    failures, [r] being [maxRetries] (or 0 when [maxRetries] is
    negative), the loop throws the last of them after exactly [r + 1]
    attempts and [r] sleeps: a negative budget behaves like a budget of
    zero. *)
Theorem retries_until_budget_spent
    (cfg : Config) (env : Env) (url : string) (maxRetries : Z) (w : World)
    (fuel : nat) :
  maxRetries < 2 ^ 53 ->
  (Z.to_nat maxRetries < fuel)%nat ->
  transient_run env (axios_calls w) (S (Z.to_nat maxRetries)) = true ->
  exists err w',
    upstream env (axios_calls w + Z.to_nat maxRetries) = Rejected err /\
    isGateway err = true /\
    fetchWithRetries cfg env fuel url maxRetries w = (Threw err, w') /\
    attempts_between w w' = S (Z.to_nat maxRetries) /\
    sleeps_between w w' = Z.to_nat maxRetries.
Proof.
  intros Hsmall Hfuel Hrun.
  destruct (retry_loop_budget_spent cfg env url maxRetries
              (Z.to_nat maxRetries) fuel 0 w)
    as (w' & Heq & Hcalls & Hsleeps); try assumption;
    [lia | rewrite Z.sub_0_r; reflexivity |].
  pose proof (transient_run_nth env _ _ (Z.to_nat maxRetries) Hrun
                (Nat.lt_succ_diag_r _)) as Hlast.
  apply transient_inv in Hlast as (err & Hup & Hgw).
  exists err, w'. rewrite Hup in Heq.
  unfold attempts_between, sleeps_between, fetchWithRetries.
  repeat split; try assumption; lia.
Qed.

Lemma retries_until_budget_spent_witness :
  exists err w',
    upstream (scripted [] (Rejected error_503) one_half rendering_browser)
      (axios_calls initial_world + Z.to_nat (-1)) = Rejected err /\
    isGateway err = true /\
    fetchWithRetries default_config
      (scripted [] (Rejected error_503) one_half rendering_browser)
      1 "u" (-1) initial_world = (Threw err, w') /\
    attempts_between initial_world w' = S (Z.to_nat (-1)) /\
    sleeps_between initial_world w' = Z.to_nat (-1).
Proof.
  apply (retries_until_budget_spent default_config
           (scripted [] (Rejected error_503) one_half rendering_browser)
           "u" (-1) initial_world 1);
    [lia | cbn; lia | reflexivity].
Defined.

(** X3.  In every run of the loop that ends, the events it adds are, in
    order of time, one [axios.get] followed by zero or more groups of a
    warning, a sleep and an [axios.get]: no two attempts without a sleep
    between them, the warnings numbered 1, 2, 3, ... (as far as the
    counter, a double, counts: up to 2^53) and each sleep lasting what
    its warning announced. *)
Theorem every_retry_follows_a_sleep
    (cfg : Config) (env : Env) (fuel : nat) (url : string) (maxRetries : Z)
    (w w' : World) (c : Completion Response) :
  fetchWithRetries cfg env fuel url maxRetries w = (c, w') ->
  c <> OutOfFuel ->
  exists tail,
    log w' = (rev (EvAxiosGet url (REQUEST_TIMEOUT cfg) :: tail) ++ log w)%list /\
    paced 1 tail = true.
Proof.
  intros Hrun Hc.
  assert (Hzero : 0 <= 0 <= 2 ^ 53) by lia.
  pose proof (retry_loop_paced cfg env url maxRetries fuel 0 w c w'
                Hzero Hrun Hc) as Hpaced.
  rewrite (next_attempt_exact 0) in Hpaced by lia. exact Hpaced.
Qed.

Lemma every_retry_follows_a_sleep_witness :
  let env := scripted [Rejected error_503; Rejected error_503]
               (Resolved result_page) one_half rendering_browser in
  let run := fetchWithRetries default_config env 6 "u" 5 initial_world in
  exists tail,
    log (snd run)
    = (rev (EvAxiosGet "u" (REQUEST_TIMEOUT default_config) :: tail)
       ++ log initial_world)%list /\
    paced 1 tail = true.
Proof.
  intros env run.
  apply (every_retry_follows_a_sleep default_config env 6 "u" 5 initial_world
           (snd run) (fst run));
    [apply surjective_pairing | vm_compute; discriminate].
Defined.

(** X4.  Whatever the upstream answers and whatever the fuel,
    [fetchWithRetries] leaves the cache as it was, does not use the
    browser, does not move the clock back, and logs no cache write, no
    gate event and no browser start. *)
Theorem fetchWithRetries_touches_only_upstream
    (cfg : Config) (env : Env) (fuel : nat) (url : string) (maxRetries : Z)
    (w : World) :
  let w' := snd (fetchWithRetries cfg env fuel url maxRetries w) in
  cache w' = cache w /\
  browser_calls w' = browser_calls w /\
  now w <= now w' /\
  count_events is_cache_write (log w') = count_events is_cache_write (log w) /\
  count_events is_gate (log w') = count_events is_gate (log w) /\
  count_events is_playwright (log w') = count_events is_playwright (log w).
Proof.
  intros w'. subst w'.
  destruct (fetchWithRetries cfg env fuel url maxRetries w) as [c w'] eqn:Hrun.
  apply fetchWithRetries_post in Hrun
    as [(Hc & Hb & Hn & _ & _ & evs & Hl & Hevs & _) _].
  cbn [snd]. rewrite Hl, !count_events_app.
  rewrite (count_events_excluded is_retry_event is_cache_write evs);
    [| intros []; (discriminate || reflexivity) | exact Hevs].
  rewrite (count_events_excluded is_retry_event is_gate evs);
    [| intros []; (discriminate || reflexivity) | exact Hevs].
  rewrite (count_events_excluded is_retry_event is_playwright evs);
    [| intros []; (discriminate || reflexivity) | exact Hevs].
  repeat split; assumption.
Qed.

(** ** More on the browser fallback *)

(** X5.  [playwrightFetch] resolves exactly when none of its steps
    fails ([require], launch, new page, navigation, content, close), and
    then with the page's content as [data] and the marker as the only
    header. *)
Theorem playwrightFetch_resolves_iff_every_step_succeeds
    (env : Env) (url : string) (w : World) (resp : Response) :
  fst (playwrightFetch env url w) = Returned resp <->
  exists html,
    browser env (browser_calls w) = healthy_browser html /\
    resp = mkResponse (JString html) (Some playwright_marker).
Proof.
  destruct (playwrightFetch_run env url w) as (w' & Hrun & _).
  rewrite Hrun. cbn [fst]. unfold playwright_outcome, healthy_browser.
  destruct (browser env (browser_calls w)) as [rq la np gt ct cl].
  cbn [pw_require pw_launch pw_newPage pw_goto pw_content pw_close].
  split.
  - destruct rq, la, cl, np, gt, ct; cbn; try discriminate.
    intros [= <-]. eexists. split; reflexivity.
  - intros (html & [= -> -> -> -> -> ->] & ->). reflexivity.
Qed.

(** X6.  The browser is closed exactly once whenever it was launched,
    however the page steps end, and never when [require] or the launch
    itself fails; each call uses the browser once. *)
Theorem browser_closed_exactly_when_launched
    (env : Env) (url : string) (w : World) :
  let run := browser env (browser_calls w) in
  let w' := snd (playwrightFetch env url w) in
  count_events is_browser_close (log w')
  = (count_events is_browser_close (log w)
     + match pw_require run, pw_launch run with
       | None, None => 1
       | _, _ => 0
       end)%nat /\
  count_events is_playwright (log w') = S (count_events is_playwright (log w)) /\
  browser_calls w' = S (browser_calls w).
Proof.
  intros run w'. subst run w'. unfold playwrightFetch.
  destruct (browser env (browser_calls w)) as [rq la np gt ct cl].
  cbn [pw_require pw_launch pw_newPage pw_goto pw_content pw_close].
  destruct rq, la, np, gt, ct, cl; unfold count_events; cbn;
    repeat split; lia.
Qed.

(** X7.  Once the browser is launched, a failing [browser.close()]
    decides the outcome: its error is thrown even when the page was read
    successfully, and it replaces the error of a failed page step. *)
Theorem failing_close_overrides_the_outcome
    (env : Env) (url : string) (w : World) (closeErr : JsError) :
  pw_require (browser env (browser_calls w)) = None ->
  pw_launch (browser env (browser_calls w)) = None ->
  pw_close (browser env (browser_calls w)) = Some closeErr ->
  fst (playwrightFetch env url w) = Threw closeErr.
Proof.
  intros Hrq Hla Hcl.
  destruct (playwrightFetch_run env url w) as (w' & Hrun & _).
  rewrite Hrun. cbn [fst]. unfold playwright_outcome.
  rewrite Hrq, Hla, Hcl. reflexivity.
Qed.

Lemma failing_close_overrides_witness :
  fst (playwrightFetch
         (scripted [] (Resolved result_page) one_half
            (mkBrowserRun None None None None (inl "<html>rendered</html>")
               (Some browser_crash)))
         "u" initial_world) = Threw browser_crash.
Proof.
  apply (failing_close_overrides_the_outcome
           (scripted [] (Resolved result_page) one_half
              (mkBrowserRun None None None None (inl "<html>rendered</html>")
                 (Some browser_crash)))
           "u" initial_world browser_crash); reflexivity.
Defined.

(** ** More on the request *)

Section RequestShape.

Variable cfg : Config.
Variable env : Env.

Lemma forallb_weaken (p q : Event -> bool) (l : list Event) :
  (forall e, p e = true -> q e = true) ->
  forallb p l = true -> forallb q l = true.
Proof.
  intros Hpq. induction l as [| e l IH]; [reflexivity |].
  cbn. intros [He Hl]%andb_true_iff. rewrite (Hpq e He). auto.
Qed.

Lemma lookup_after_get (c : gmap string ExpiringCache.CacheEntry)
    (t : Z) (k0 k : string) :
  k <> k0 -> snd (ExpiringCache.get t k0 c) !! k = c !! k.
Proof.
  intros Hne. unfold ExpiringCache.get.
  destruct (c !! k0) as [e |]; [| reflexivity].
  destruct (ExpiringCache.expired t e); [| reflexivity].
  cbn [snd]. apply lookup_delete_ne. congruence.
Qed.

Lemma get_live_keeps (c : gmap string ExpiringCache.CacheEntry)
    (t : Z) (k : string) (v : JsValue) :
  ExpiringCache.peek t k c = Some v ->
  snd (ExpiringCache.get t k c) = c /\
  exists t0 life, c !! k = Some (ExpiringCache.mkEntry v t0 life) /\ t < t0 + life.
Proof.
  unfold ExpiringCache.peek, ExpiringCache.get, ExpiringCache.expired.
  destruct (c !! k) as [[v0 t0 life] |]; [| discriminate].
  cbn [ExpiringCache.storedAt ExpiringCache.ttl ExpiringCache.value].
  destruct (t0 + life <=? t) eqn:E; [discriminate |].
  cbn. intros [= ->]. apply Z.leb_gt in E. split; [reflexivity |].
  exists t0, life. split; [reflexivity | exact E].
Qed.

(** What the queued task adds to the log, and what it leaves of the
    cache. *)
Lemma fetchResultForRoll_task_effects fuel roll key url w c w2 :
  fetchResultForRoll_task cfg env fuel roll key url w = (c, w2) ->
  (exists evs,
     log w2 = (evs ++ log w)%list /\ forallb is_task_event evs = true) /\
  (forall k, k <> key -> cache w2 !! k = cache w !! k) /\
  now w <= now w2.
Proof.
  intros Htask.
  apply fetchResultForRoll_task_inv in Htask
    as (c1 & w1 & w3 & Hprimary & _ & Hworld).
  apply fetchWithRetries_post in Hprimary
    as [(Hc1 & _ & Hn1 & _ & _ & evs & Hl1 & Hevs & _) _].
  assert (Hevs' : forallb is_task_event evs = true).
  { apply (forallb_weaken is_retry_event); [| exact Hevs].
    intros []; (discriminate || reflexivity). }
  unfold task_world in Hworld.
  destruct c1 as [resp | err |].
  - subst w2. cbn [log cache now after_store emit set_cache]. repeat split.
    + exists (EvCacheSet key (resp_data resp) :: evs). split.
      * rewrite Hl1. reflexivity.
      * cbn. exact Hevs'.
    + intros k Hk. unfold ExpiringCache.set.
      rewrite lookup_insert_ne by congruence. rewrite Hc1. reflexivity.
    + exact Hn1.
  - destruct (PLAYWRIGHT_FALLBACK cfg).
    + destruct Hworld as [(Hc3 & _ & _ & _ & Hn3 & evs3 & Hl3 & Hevs3) Hw2].
      cbn [cache now log emit] in *.
      assert (Hevs3' : forallb is_task_event evs3 = true).
      { apply (forallb_weaken is_browser_event); [| exact Hevs3].
        intros []; (discriminate || reflexivity). }
      destruct (playwright_outcome (browser env (browser_calls w)))
        as [pwResp | pwErr]; subst w2;
        cbn [log cache now after_store emit set_cache]; repeat split.
      * exists (EvCacheSet key (resp_data pwResp)
                :: evs3 ++ EvWarnDirectFailed roll (message_or_string err)
                :: evs)%list.
        split.
        -- rewrite Hl3, Hl1. cbn. rewrite <- app_assoc. reflexivity.
        -- cbn. rewrite forallb_app, Hevs3'. cbn. exact Hevs'.
      * intros k Hk. unfold ExpiringCache.set.
        rewrite lookup_insert_ne by congruence. rewrite Hc3, Hc1. reflexivity.
      * lia.
      * exists (EvErrorFallbackFailed (message_or_string pwErr)
                :: evs3 ++ EvWarnDirectFailed roll (message_or_string err)
                :: evs)%list.
        split.
        -- rewrite Hl3, Hl1. cbn. rewrite <- app_assoc. reflexivity.
        -- cbn. rewrite forallb_app, Hevs3'. cbn. exact Hevs'.
      * intros k Hk. rewrite Hc3, Hc1. reflexivity.
      * lia.
    + subst w2. cbn [log cache now emit]. repeat split.
      * exists (EvWarnDirectFailed roll (message_or_string err) :: evs).
        split; [rewrite Hl1; reflexivity | cbn; exact Hevs'].
      * intros k Hk. rewrite Hc1. reflexivity.
      * exact Hn1.
  - subst w2. repeat split.
    + exists evs. split; assumption.
    + intros k Hk. rewrite Hc1. reflexivity.
    + exact Hn1.
Qed.

(** A roll has no url exactly when it holds a lone surrogate. *)
Lemma KTU_FETCH_URL_TEMPLATE_None roll :
  KTU_FETCH_URL_TEMPLATE roll = None <-> lone_surrogate roll = true.
Proof.
  unfold KTU_FETCH_URL_TEMPLATE, encodeURIComponent.
  destruct (lone_surrogate roll); split; (reflexivity || discriminate).
Qed.

Lemma KTU_FETCH_URL_TEMPLATE_Some roll url :
  KTU_FETCH_URL_TEMPLATE roll = Some url <->
  lone_surrogate roll = false /\
  url = "https://ktu.edu.in/results?roll=" ++ percent_encode roll.
Proof.
  unfold KTU_FETCH_URL_TEMPLATE, encodeURIComponent.
  destruct (lone_surrogate roll); split.
  - discriminate.
  - intros [[=] _].
  - intros [= <-]. split; reflexivity.
  - intros [_ ->]. reflexivity.
Qed.

(** With a budget the counter can reach and fuel beyond it, a request
    that is served from the cache or has a url returns a result. *)
Lemma fetchResultForRoll_returns fuel roll w :
  MAX_RETRIES cfg < 2 ^ 53 ->
  (Z.to_nat (MAX_RETRIES cfg) < fuel)%nat ->
  truthy_opt (ExpiringCache.peek (now w) (cacheKey_of roll) (cache w)) = true
  \/ lone_surrogate roll = false ->
  exists r w', fetchResultForRoll cfg env fuel roll w = (Returned r, w').
Proof.
  intros Hsmall Hfuel Hcan.
  destruct (fetchResultForRoll cfg env fuel roll w) as [c w'] eqn:Hrun.
  apply fetchResultForRoll_inv in Hrun
    as [(v & _ & _ & -> & _)
       | [(Hmiss & Hurl & _)
         | (_ & url & c1 & w1 & w3 & w2 & _ & Hprimary & Hres & _ & _)]];
    [eauto | |].
  - apply KTU_FETCH_URL_TEMPLATE_None in Hurl.
    destruct Hcan as [Hhit | Hok]; congruence.
  - pose proof (retry_loop_terminates cfg env fuel url (MAX_RETRIES cfg) 0
                  (gate_entered env (after_check (cacheKey_of roll) w)))
      as Hterm.
    unfold fetchWithRetries in Hprimary. rewrite Hprimary in Hterm.
    rewrite Z.sub_0_r in Hterm.
    assert (Hzero : 0 <= 0 <= 2 ^ 53) by lia.
    specialize (Hterm Hzero Hsmall Hfuel). cbn [fst] in Hterm.
    unfold task_result in Hres.
    destruct c1 as [resp | err |]; [subst c; eauto | | contradiction].
    destruct (PLAYWRIGHT_FALLBACK cfg);
      [destruct (playwright_outcome _) |]; subst c; eauto.
Qed.

(** Whatever the fuel, a request throws only for want of a url, and
    then right after the cache check. *)
Lemma fetchResultForRoll_throw_inv fuel roll w err w' :
  fetchResultForRoll cfg env fuel roll w = (Threw err, w') ->
  err = uri_malformed /\
  lone_surrogate roll = true /\
  truthy_opt (ExpiringCache.peek (now w) (cacheKey_of roll) (cache w)) = false /\
  w' = after_check (cacheKey_of roll) w.
Proof.
  intros Hrun.
  apply fetchResultForRoll_inv in Hrun
    as [(v & _ & _ & [=] & _)
       | [(Hmiss & Hurl & [= ->] & ->)
         | (_ & url & c1 & w1 & w3 & w2 & _ & _ & Hres & _ & _)]].
  - apply KTU_FETCH_URL_TEMPLATE_None in Hurl. repeat split; assumption.
  - exfalso. unfold task_result in Hres.
    destruct c1 as [resp | e |]; [discriminate | | discriminate].
    destruct (PLAYWRIGHT_FALLBACK cfg);
      [destruct (playwright_outcome _) |]; discriminate.
Qed.

(** Every result has the fields of its kind. *)
Lemma fetchResultForRoll_well_formed fuel roll w r w' :
  fetchResultForRoll cfg env fuel roll w = (Returned r, w') ->
  well_formed_result r = true.
Proof.
  intros Hrun.
  apply fetchResultForRoll_inv in Hrun
    as [(v & _ & _ & [= ->] & _)
       | [(_ & _ & [=] & _)
         | (_ & url & c1 & w1 & w3 & w2 & _ & _ & Hres & _ & _)]];
    [reflexivity |].
  unfold task_result in Hres.
  destruct c1 as [resp | e |]; [injection Hres as ->; reflexivity | |
                                discriminate].
  destruct (PLAYWRIGHT_FALLBACK cfg);
    [destruct (playwright_outcome _) |]; injection Hres as ->; reflexivity.
Qed.

End RequestShape.

(** X8.  [fetchResultForRoll] throws in one case only: the cache has
    nothing it serves and the roll holds a lone surrogate, so that
    [encodeURIComponent] throws [URIError] when the url is built, before
    the gate; every failure of the upstream or of the browser comes back
    as a result.  In every other case, with a retry budget below 2^53
    and fuel beyond it, it returns a result. *)
Theorem fetchResultForRoll_throws_only_for_want_of_a_url
    (cfg : Config) (env : Env) (fuel : nat) (roll : string) (w : World) :
  let miss :=
    truthy_opt (ExpiringCache.peek (now w) (cacheKey_of roll) (cache w))
    = false in
  (forall err w',
     fetchResultForRoll cfg env fuel roll w = (Threw err, w') ->
     err = uri_malformed /\ lone_surrogate roll = true /\ miss /\
     w' = after_check (cacheKey_of roll) w) /\
  (miss -> lone_surrogate roll = true ->
   fetchResultForRoll cfg env fuel roll w
   = (Threw uri_malformed, after_check (cacheKey_of roll) w)) /\
  (MAX_RETRIES cfg < 2 ^ 53 ->
   (Z.to_nat (MAX_RETRIES cfg) < fuel)%nat ->
   ~ miss \/ lone_surrogate roll = false ->
   exists r w', fetchResultForRoll cfg env fuel roll w = (Returned r, w')).
Proof.
  intros miss. subst miss. split; [| split].
  - intros err w'. apply fetchResultForRoll_throw_inv.
  - intros Hmiss Hlone. apply fetchResultForRoll_unencodable; [exact Hmiss |].
    apply KTU_FETCH_URL_TEMPLATE_None. exact Hlone.
  - intros Hsmall Hfuel Hcan. apply fetchResultForRoll_returns; try assumption.
    destruct Hcan as [Hhit | Hok]; [left | right; exact Hok].
    destruct (truthy_opt _); [reflexivity | contradiction Hhit; reflexivity].
Qed.

Lemma fetchResultForRoll_throws_witness :
  let env := scripted [] (Resolved result_page) one_half rendering_browser in
  fetchResultForRoll default_config env 6 surrogate_roll initial_world
  = (Threw uri_malformed,
     after_check (cacheKey_of surrogate_roll) initial_world).
Proof.
  intros env.
  apply (proj1 (proj2 (fetchResultForRoll_throws_only_for_want_of_a_url
                         default_config env 6 surrogate_roll initial_world)));
    reflexivity.
Defined.

(** X9.  A request that ends has given back the slot it took: it passes
    the gate once, in and out, when the cache check does not yield a
    value it serves and the roll has a url, and not at all otherwise
    (served from the cache, or thrown while the url was built). *)
Theorem slot_given_back_on_every_path
    (cfg : Config) (env : Env) (fuel : nat) (roll : string) (w w' : World)
    (c : Completion Result) :
  fetchResultForRoll cfg env fuel roll w = (c, w') ->
  c <> OutOfFuel ->
  let n :=
    if truthy_opt (ExpiringCache.peek (now w) (cacheKey_of roll) (cache w))
    then 0%nat
    else match KTU_FETCH_URL_TEMPLATE roll with
         | Some _ => 1%nat
         | None => 0%nat
         end in
  count_events is_gate_enter (log w')
  = (count_events is_gate_enter (log w) + n)%nat /\
  count_events is_gate_exit (log w')
  = (count_events is_gate_exit (log w) + n)%nat.
Proof.
  intros Hrun Hc n. subst n.
  destruct (truthy_opt
              (ExpiringCache.peek (now w) (cacheKey_of roll) (cache w)))
    eqn:Hcached.
  - destruct (ExpiringCache.peek (now w) (cacheKey_of roll) (cache w))
      as [v |] eqn:Hpeek; [| discriminate].
    cbn in Hcached.
    rewrite (fetchResultForRoll_hit _ _ _ _ _ _ Hpeek Hcached) in Hrun.
    injection Hrun as <- <-. unfold count_events. cbn. split; lia.
  - destruct (KTU_FETCH_URL_TEMPLATE roll) as [url |] eqn:Hurl;
      [| rewrite (fetchResultForRoll_unencodable _ _ _ _ _ Hcached Hurl) in Hrun;
         injection Hrun as <- <-; unfold count_events; cbn; split; lia].
    rewrite (fetchResultForRoll_miss _ _ _ _ _ _ Hcached Hurl) in Hrun.
    destruct (fetchResultForRoll_task cfg env fuel roll (cacheKey_of roll)
                url _) as [c2 w2] eqn:Htask.
    apply fetchResultForRoll_task_effects in Htask
      as ((evs & Hlog & Hevs) & _ & _).
    assert (He : count_events is_gate_enter evs = 0%nat).
    { apply (count_events_excluded is_task_event); [| exact Hevs].
      intros []; (discriminate || reflexivity). }
    assert (Hx : count_events is_gate_exit evs = 0%nat).
    { apply (count_events_excluded is_task_event); [| exact Hevs].
      intros []; (discriminate || reflexivity). }
    assert (Hw' : w' = emit EvGateExit w2).
    { destruct c2; injection Hrun as <- <-; [reflexivity | reflexivity |].
      contradiction. }
    subst w'. cbn [log emit]. rewrite Hlog.
    change (EvGateExit :: evs ++ log _)%list
      with ([EvGateExit] ++ evs ++
            [EvGateEnter; EvCacheGet (cacheKey_of roll)] ++ log w)%list.
    rewrite !count_events_app, He, Hx. unfold count_events. cbn. split; lia.
Qed.

Lemma slot_given_back_witness :
  let env := scripted [] (Rejected error_404) one_half failing_browser in
  let run := fetchResultForRoll fallback_config env 6 "R1" initial_world in
  count_events is_gate_enter (log (snd run)) = 1%nat /\
  count_events is_gate_exit (log (snd run)) = 1%nat.
Proof.
  intros env run.
  apply (slot_given_back_on_every_path fallback_config env 6 "R1"
           initial_world (snd run) (fst run));
    [apply surjective_pairing | vm_compute; discriminate].
Defined.

(** X10.  A request for one roll leaves the cache entries of every
    other key as they were, whether it succeeds, fails or runs out of
    fuel: other rolls' results are neither overwritten nor evicted. *)
Theorem other_entries_untouched
    (cfg : Config) (env : Env) (fuel : nat) (roll key : string) (w : World) :
  key <> cacheKey_of roll ->
  cache (snd (fetchResultForRoll cfg env fuel roll w)) !! key = cache w !! key.
Proof.
  intros Hne.
  destruct (truthy_opt
              (ExpiringCache.peek (now w) (cacheKey_of roll) (cache w)))
    eqn:Hcached.
  - destruct (ExpiringCache.peek (now w) (cacheKey_of roll) (cache w))
      as [v |] eqn:Hpeek; [| discriminate].
    cbn in Hcached.
    rewrite (fetchResultForRoll_hit _ _ _ _ _ _ Hpeek Hcached).
    cbn [snd cache after_check emit set_cache].
    apply lookup_after_get. exact Hne.
  - destruct (KTU_FETCH_URL_TEMPLATE roll) as [url |] eqn:Hurl;
      [| rewrite (fetchResultForRoll_unencodable _ _ _ _ _ Hcached Hurl);
         cbn [snd cache after_check emit set_cache];
         apply lookup_after_get; exact Hne].
    rewrite (fetchResultForRoll_miss _ _ _ _ _ _ Hcached Hurl).
    destruct (fetchResultForRoll_task cfg env fuel roll (cacheKey_of roll)
                url _) as [c2 w2] eqn:Htask.
    apply fetchResultForRoll_task_effects in Htask as (_ & Hkeys & _).
    specialize (Hkeys key Hne).
    cbn [cache gate_entered after_check suspend emit set_cache] in Hkeys.
    rewrite lookup_after_get in Hkeys by exact Hne.
    destruct c2; cbn [snd cache emit]; exact Hkeys.
Qed.

Lemma other_entries_untouched_witness :
  let env := scripted [] (Resolved result_page) one_half rendering_browser in
  let w := snd (fetchResultForRoll default_config env 6 "R1" initial_world) in
  cache (snd (fetchResultForRoll default_config env 6 "R2" w))
    !! cacheKey_of "R1"
  = cache w !! cacheKey_of "R1".
Proof.
  intros env w.
  apply (other_entries_untouched default_config env 6 "R2" (cacheKey_of "R1") w).
  discriminate.
Defined.

(** X11.  A result always has the fields of its kind: a success has
    [fromCache] and [data] and no [error]; a failure has [error] and
    neither [fromCache], [data] nor [headers]. *)
Theorem results_have_the_fields_of_their_kind
    (cfg : Config) (env : Env) (fuel : nat) (roll : string) (w w' : World)
    (r : Result) :
  fetchResultForRoll cfg env fuel roll w = (Returned r, w') ->
  if ok r then
    (exists cached d, fromCache r = Some cached /\ data r = Some d) /\
    error r = None
  else
    (exists msg, error r = Some msg) /\
    fromCache r = None /\ data r = None /\ headers r = None.
Proof.
  intros Hrun. apply fetchResultForRoll_well_formed in Hrun.
  unfold well_formed_result in Hrun.
  destruct r as [o fc d h e]. cbn [ok fromCache data headers error] in *.
  destruct o.
  - destruct fc, d, e; try discriminate. split; [eauto | reflexivity].
  - destruct fc, d, h, e; try discriminate. repeat split. eauto.
Qed.

Lemma results_fields_witness :
  (exists msg,
     error (failed "Request failed with status code 404") = Some msg) /\
  fromCache (failed "Request failed with status code 404") = None /\
  data (failed "Request failed with status code 404") = None /\
  headers (failed "Request failed with status code 404") = None.
Proof.
  apply (results_have_the_fields_of_their_kind default_config
           (scripted [] (Rejected error_404) one_half rendering_browser)
           1 "R1" initial_world
           (snd (fetchResultForRoll default_config
                   (scripted [] (Rejected error_404) one_half rendering_browser)
                   1 "R1" initial_world))
           (failed "Request failed with status code 404")).
  reflexivity.
Defined.

(** X12.  When the cache holds a live entry for the roll whose value is
    truthy (any value but [null], [false], [0], [-0] and the empty
    string), the request returns that value with [fromCache: true] and
    does nothing else: no upstream call, no browser, no gate, no
    suspension, no cache write, and the cache is left as it was. *)
Theorem live_body_served_without_fetching
    (cfg : Config) (env : Env) (fuel : nat) (roll : string) (w : World)
    (v : JsValue) :
  ExpiringCache.peek (now w) (cacheKey_of roll) (cache w) = Some v ->
  js_truthy v = true ->
  exists w',
    fetchResultForRoll cfg env fuel roll w
    = (Returned (mkResult true (Some true) (Some v) None None), w') /\
    log w' = EvCacheGet (cacheKey_of roll) :: log w /\
    cache w' = cache w /\
    axios_calls w' = axios_calls w /\
    browser_calls w' = browser_calls w /\
    awaits w' = awaits w /\
    now w' = now w.
Proof.
  intros Hpeek Htruthy.
  exists (after_check (cacheKey_of roll) w).
  rewrite (fetchResultForRoll_hit _ _ _ _ _ _ Hpeek Htruthy).
  apply get_live_keeps in Hpeek as [Hsame _].
  cbn. rewrite Hsame. repeat split.
Qed.

Lemma live_body_served_witness :
  let w := mkWorld
             {[ cacheKey_of "R1" :=
                  ExpiringCache.mkEntry (JString "<html>marks</html>")
                    0 300000 ]}
             1000 0 0 0 0 [] in
  exists w',
    fetchResultForRoll default_config
      (scripted [] (Rejected error_503) one_half rendering_browser) 0 "R1" w
    = (Returned
         (mkResult true (Some true) (Some (JString "<html>marks</html>"))
            None None), w')
    /\ log w' = EvCacheGet (cacheKey_of "R1") :: log w
    /\ cache w' = cache w
    /\ axios_calls w' = axios_calls w
    /\ browser_calls w' = browser_calls w
    /\ awaits w' = awaits w
    /\ now w' = now w.
Proof.
  intros w.
  apply (live_body_served_without_fetching default_config
           (scripted [] (Rejected error_503) one_half rendering_browser)
           0 "R1" w (JString "<html>marks</html>")); reflexivity.
Defined.

(** X13.  What a request fetched is what the next one is served: after
    a request that fetched a truthy body (from the upstream, parsed or
    not, or through the browser), any request for the same roll that finds the cache as
    that request left it, less than [CACHE_TTL] seconds after it ended,
    returns the same body from the cache. *)
Theorem fetched_body_served_to_later_requests
    (cfg : Config) (env : Env) (fuel fuel2 : nat) (roll : string)
    (w w' later : World) (r : Result) (d : JsValue) :
  fetchResultForRoll cfg env fuel roll w = (Returned r, w') ->
  fromCache r = Some false ->
  data r = Some d ->
  js_truthy d = true ->
  cache later = cache w' ->
  now later < now w' + CACHE_TTL cfg * 1000 ->
  fetchResultForRoll cfg env fuel2 roll later
  = (Returned (mkResult true (Some true) (Some d) None None),
     after_check (cacheKey_of roll) later).
Proof.
  intros Hrun Hfresh Hdata Htruthy Hcache Hlive.
  apply fetchResultForRoll_inv in Hrun
    as [(v & _ & _ & [= ->] & _)
       | [(_ & _ & [=] & _)
         | (_ & url & c1 & w1 & w3 & w2 & _ & _ & Hres & Hworld & ->)]];
    [discriminate |].
  cbn [cache now emit] in *.
  assert (Hstored : exists w0,
            w2 = after_store cfg (cacheKey_of roll) d w0).
  { unfold task_result, task_world in *.
    destruct c1 as [resp | err |]; [| | discriminate].
    - injection Hres as ->. cbn in Hdata. injection Hdata as <-.
      exists w1. exact Hworld.
    - destruct (PLAYWRIGHT_FALLBACK cfg);
        [| injection Hres as ->; discriminate].
      destruct Hworld as [_ Hw2].
      destruct (playwright_outcome (browser env (browser_calls w)))
        as [pwResp | pwErr]; [| injection Hres as ->; discriminate].
      injection Hres as ->. cbn in Hdata. injection Hdata as <-.
      exists w3. exact Hw2. }
  destruct Hstored as (w0 & ->).
  cbn [cache now after_store emit set_cache] in *.
  eapply stored_body_served_within_ttl; eassumption.
Qed.

Lemma fetched_body_served_witness :
  let env := scripted [] (Resolved result_page) one_half rendering_browser in
  let first := fetchResultForRoll default_config env 6 "R1" initial_world in
  fetchResultForRoll default_config env 0 "R1" (snd first)
  = (Returned
       (mkResult true (Some true) (Some (JString "<html>marks</html>"))
          None None),
     after_check (cacheKey_of "R1") (snd first)).
Proof.
  intros env first.
  apply (fetched_body_served_to_later_requests default_config env 6 0 "R1"
           initial_world (snd first) (snd first)
           (fetched (JString "<html>marks</html>") (resp_headers result_page))
           (JString "<html>marks</html>"));
    reflexivity.
Defined.

(** ** The upstream URL and the cache key *)

Lemma hex_digit_inj (a b : nat) :
  (a < 16)%nat -> (b < 16)%nat -> hex_digit a = hex_digit b -> a = b.
Proof.
  intros Ha Hb.
  do 16 (destruct a as [| a]; [
    do 16 (destruct b as [| b]; [first [reflexivity | discriminate] |]); lia |]).
  lia.
Qed.

Lemma unreserved_not_percent (c : ascii) :
  unreserved c = true -> c <> "%"%char.
Proof. intros Hc ->. discriminate. Qed.

Lemma nat_of_ascii_inj (c1 c2 : ascii) :
  nat_of_ascii c1 = nat_of_ascii c2 -> c1 = c2.
Proof.
  intros H. rewrite <- (ascii_nat_embedding c1), <- (ascii_nat_embedding c2).
  rewrite H. reflexivity.
Qed.

Lemma percent_encode_inj (s1 : string) : forall s2,
  percent_encode s1 = percent_encode s2 -> s1 = s2.
Proof.
  induction s1 as [| c1 s1 IH]; intros [| c2 s2]; cbn [percent_encode].
  - reflexivity.
  - destruct (unreserved c2); discriminate.
  - destruct (unreserved c1); discriminate.
  - destruct (unreserved c1) eqn:U1, (unreserved c2) eqn:U2.
    + intros [= -> H]. f_equal. apply IH. exact H.
    + intros [= -> _]. discriminate.
    + intros [= <- _]. discriminate.
    + intros [= Hhi Hlo H].
      pose proof (nat_ascii_bounded c1) as B1.
      pose proof (nat_ascii_bounded c2) as B2.
      change (hex_digit (nat_of_ascii c1 / 16)
              = hex_digit (nat_of_ascii c2 / 16)) in Hhi.
      change (hex_digit (nat_of_ascii c1 mod 16)
              = hex_digit (nat_of_ascii c2 mod 16)) in Hlo.
      apply hex_digit_inj in Hhi;
        [| apply Nat.Div0.div_lt_upper_bound; lia
         | apply Nat.Div0.div_lt_upper_bound; lia].
      apply hex_digit_inj in Hlo;
        [| apply Nat.mod_upper_bound; lia | apply Nat.mod_upper_bound; lia].
      f_equal; [| apply IH; exact H].
      apply nat_of_ascii_inj.
      rewrite (Nat.div_mod_eq (nat_of_ascii c1) 16).
      rewrite (Nat.div_mod_eq (nat_of_ascii c2) 16).
      rewrite Hhi, Hlo. reflexivity.
Qed.

Lemma string_app_inj_l (p s1 s2 : string) : p ++ s1 = p ++ s2 -> s1 = s2.
Proof.
  induction p as [| c p IH]; cbn; [auto |]. intros [= H]. apply IH. exact H.
Qed.

(** X14.  Two different rolls are never fetched from the same URL nor
    stored under the same cache key: the url of one roll is not the url
    of another. *)
Theorem distinct_rolls_have_distinct_urls_and_keys (roll1 roll2 : string) :
  roll1 <> roll2 ->
  (forall url, KTU_FETCH_URL_TEMPLATE roll1 = Some url ->
               KTU_FETCH_URL_TEMPLATE roll2 <> Some url) /\
  cacheKey_of roll1 <> cacheKey_of roll2.
Proof.
  intros Hne. split.
  - intros url [_ H1]%KTU_FETCH_URL_TEMPLATE_Some
                [_ H2]%KTU_FETCH_URL_TEMPLATE_Some.
    apply Hne. apply percent_encode_inj. eapply string_app_inj_l.
    rewrite <- H1, <- H2. reflexivity.
  - intros Heq. apply Hne. eapply string_app_inj_l. exact Heq.
Qed.

Lemma distinct_rolls_witness :
  (forall url, KTU_FETCH_URL_TEMPLATE "A 1" = Some url ->
               KTU_FETCH_URL_TEMPLATE "A%201" <> Some url) /\
  cacheKey_of "A 1" <> cacheKey_of "A%201".
Proof.
  apply (distinct_rolls_have_distinct_urls_and_keys "A 1" "A%201").
  discriminate.
Defined.

Lemma hex_digit_safe (n : nat) : uri_safe (hex_digit n) = true.
Proof.
  do 16 (destruct n as [| n]; [reflexivity |]).
  unfold hex_digit. cbn. destruct n; reflexivity.
Qed.

Lemma percent_encode_safe (s : string) :
  forallb uri_safe (list_ascii_of_string (percent_encode s)) = true.
Proof.
  induction s as [| c s IH]; [reflexivity |].
  cbn [percent_encode]. destruct (unreserved c) eqn:Hc.
  - cbn [list_ascii_of_string forallb]. rewrite IH.
    unfold uri_safe. rewrite Hc. reflexivity.
  - cbn [list_ascii_of_string forallb]. rewrite IH, !hex_digit_safe.
    reflexivity.
Qed.

(** X15.  Whatever the roll, its URL (it has one unless it holds a lone
    surrogate) is the fixed prefix followed only by letters, digits, the
    marks [-_.!~*'()] and [%]: the roll cannot add a parameter, a
    fragment, a path segment or a space to it. *)
Theorem roll_cannot_alter_the_url (roll : string) :
  match KTU_FETCH_URL_TEMPLATE roll with
  | Some url =>
      exists encoded,
        encodeURIComponent roll = Some encoded /\
        url = "https://ktu.edu.in/results?roll=" ++ encoded /\
        forallb uri_safe (list_ascii_of_string encoded) = true
  | None => lone_surrogate roll = true
  end /\
  forallb (fun c => negb (uri_safe c))
    (list_ascii_of_string "&=#?/ +:;,@$") = true.
Proof.
  split; [| reflexivity].
  unfold KTU_FETCH_URL_TEMPLATE, encodeURIComponent.
  destruct (lone_surrogate roll); [reflexivity |].
  exists (percent_encode roll).
  split; [reflexivity |]. split; [reflexivity |]. apply percent_encode_safe.
Qed.

(** ** The HTTP endpoint *)

Lemma trim_empty : trim "" = "".
Proof. reflexivity. Qed.

Lemma error_or_default_truthy (r : Result) :
  truthy (error_or_default r) = true.
Proof.
  unfold error_or_default. destruct (error r) as [e |]; [| reflexivity].
  destruct (truthy e) eqn:He; [exact He | reflexivity].
Qed.

(** X16.  A request without a roll, or whose roll is empty once it is
    trimmed, is answered 400 with "roll query param required" before
    anything else happens: no cache lookup, no gate, no upstream call;
    the world is left exactly as it was. *)
Theorem blank_roll_is_rejected_untouched
    (cfg : Config) (env : Env) (res_send : option JsValue -> option JsError)
    (fuel : nat) (q : QueryValue) (w : World) :
  (q = QMissing \/ exists s, q = QString s /\ trim s = "") ->
  api_result cfg env res_send fuel q w
  = (Returned
       (mkHandled
          (mkHttp 400 [] (JsonBody false (Some "roll query param required")))
          None),
     w).
Proof.
  intros [-> | (s & -> & Hblank)]; unfold api_result.
  - rewrite trim_empty. reflexivity.
  - destruct (truthy s); [rewrite Hblank | rewrite trim_empty]; reflexivity.
Qed.

Lemma blank_roll_witness :
  api_result default_config
    (scripted [] (Resolved result_page) one_half rendering_browser)
    send_text_only 6 (QString "   ") initial_world
  = (Returned
       (mkHandled
          (mkHttp 400 [] (JsonBody false (Some "roll query param required")))
          None),
     initial_world).
Proof.
  apply (blank_roll_is_rejected_untouched default_config
           (scripted [] (Resolved result_page) one_half rendering_browser)
           send_text_only 6 (QString "   ") initial_world).
  right. exists "   ". split; reflexivity.
Defined.

(** X17.  A request with a roll that is not blank is answered from how
    [fetchResultForRoll] ends for the trimmed roll (it does end, the
    retry budget being below 2^53).  A failure is answered 502 with a
    non-empty error text, the result's own when it has one.  A success
    sets [Content-Type] to [text/html; charset=utf-8] and [X-Cache] to
    [HIT] exactly when the result came from the cache ([MISS]
    otherwise), and passes the data to [res.send] with status 200; if
    [res.send] throws, the answer is 500 and the error is printed.  When
    [fetchResultForRoll] throws, which it does only for a roll without a
    url, the answer is 500 as well, with no header set. *)
Theorem roll_request_answer_follows_the_result
    (cfg : Config) (env : Env) (res_send : option JsValue -> option JsError)
    (fuel : nat) (s : string) (w : World) :
  trim s <> "" ->
  MAX_RETRIES cfg < 2 ^ 53 ->
  (Z.to_nat (MAX_RETRIES cfg) < fuel)%nat ->
  exists c w1 h,
    fetchResultForRoll cfg env fuel (trim s) w = (c, w1) /\
    api_result cfg env res_send fuel (QString s) w
    = (Returned h, suspend env w1) /\
    match c with
    | Returned r =>
        if ok r then
          exists d,
            data r = Some d /\
            match res_send (Some d) with
            | None =>
                h = mkHandled
                      (mkHttp 200
                         [("Content-Type", "text/html; charset=utf-8");
                          ("X-Cache",
                           match fromCache r with
                           | Some true => "HIT"
                           | _ => "MISS"
                           end)]
                         (SendBody d))
                      None
            | Some err =>
                h = mkHandled
                      (mkHttp 500
                         [("Content-Type", "text/html; charset=utf-8");
                          ("X-Cache",
                           match fromCache r with
                           | Some true => "HIT"
                           | _ => "MISS"
                           end)]
                         (JsonBody false (Some "internal server error")))
                      (Some err)
            end
        else
          exists msg,
            truthy msg = true /\
            h = mkHandled (mkHttp 502 [] (JsonBody false (Some msg))) None /\
            (forall e, error r = Some e -> truthy e = true -> msg = e)
    | Threw err =>
        err = uri_malformed /\
        lone_surrogate (trim s) = true /\
        h = mkHandled
              (mkHttp 500 [] (JsonBody false (Some "internal server error")))
              (Some uri_malformed)
    | OutOfFuel => False
    end.
Proof.
  intros Hroll Hsmall Hfuel.
  assert (Hs : truthy s = true).
  { destruct (truthy s) eqn:E; [reflexivity |].
    unfold truthy in E. apply negb_false_iff, String.eqb_eq in E.
    subst s. contradiction Hroll. reflexivity. }
  assert (Ht : truthy (trim s) = true).
  { unfold truthy. apply negb_true_iff. apply String.eqb_neq. exact Hroll. }
  unfold api_result. rewrite Hs, Ht. cbn [negb].
  unfold try_catch, bind, await.
  destruct (fetchResultForRoll cfg env fuel (trim s) w) as [c w1] eqn:Hrun.
  exists c, w1.
  destruct c as [r | err |].
  - pose proof (fetchResultForRoll_well_formed cfg env _ _ _ _ _ Hrun) as Hwf.
    unfold well_formed_result in Hwf.
    destruct r as [o fc d hd e]. cbn [ok fromCache data headers error] in *.
    destruct o; cbn [negb].
    + destruct fc as [fc |], d as [d |], e; try discriminate.
      destruct (res_send (Some d)) as [err |] eqn:Hsend.
      * eexists. split; [reflexivity |]. split; [reflexivity |].
        exists d. split; [reflexivity |]. rewrite Hsend. reflexivity.
      * eexists. split; [reflexivity |]. split; [reflexivity |].
        exists d. split; [reflexivity |]. rewrite Hsend. reflexivity.
    + destruct fc, d, hd, e as [e |]; try discriminate.
      eexists. split; [reflexivity |]. split; [reflexivity |].
      exists (error_or_default (mkResult false None None None (Some e))).
      split; [apply error_or_default_truthy |]. split; [reflexivity |].
      intros e' [= <-] He. unfold error_or_default. cbn. rewrite He.
      reflexivity.
  - apply fetchResultForRoll_throw_inv in Hrun as (-> & Hlone & _ & _).
    eexists. split; [reflexivity |]. split; [reflexivity |].
    split; [reflexivity |]. split; [exact Hlone | reflexivity].
  - exfalso.
    destruct (truthy_opt
                (ExpiringCache.peek (now w) (cacheKey_of (trim s)) (cache w)))
      eqn:Hcached.
    + destruct (fetchResultForRoll_returns cfg env fuel (trim s) w
                  Hsmall Hfuel (or_introl Hcached)) as (r & w2 & Hret).
      congruence.
    + destruct (lone_surrogate (trim s)) eqn:Hlone.
      * rewrite (fetchResultForRoll_unencodable cfg env fuel (trim s) w
                   Hcached (proj2 (KTU_FETCH_URL_TEMPLATE_None _) Hlone))
          in Hrun.
        discriminate.
      * destruct (fetchResultForRoll_returns cfg env fuel (trim s) w
                    Hsmall Hfuel (or_intror Hlone)) as (r & w2 & Hret).
        congruence.
Qed.

Lemma roll_request_witness :
  let env := scripted [] (Resolved result_page) one_half rendering_browser in
  exists c w1 h,
    fetchResultForRoll default_config env 6 (trim " R1 ") initial_world
    = (c, w1) /\
    api_result default_config env send_text_only 6 (QString " R1 ")
      initial_world
    = (Returned h, suspend env w1) /\
    match c with
    | Returned r =>
        if ok r then
          exists d,
            data r = Some d /\
            match send_text_only (Some d) with
            | None =>
                h = mkHandled
                      (mkHttp 200
                         [("Content-Type", "text/html; charset=utf-8");
                          ("X-Cache",
                           match fromCache r with
                           | Some true => "HIT"
                           | _ => "MISS"
                           end)]
                         (SendBody d))
                      None
            | Some err =>
                h = mkHandled
                      (mkHttp 500
                         [("Content-Type", "text/html; charset=utf-8");
                          ("X-Cache",
                           match fromCache r with
                           | Some true => "HIT"
                           | _ => "MISS"
                           end)]
                         (JsonBody false (Some "internal server error")))
                      (Some err)
            end
        else
          exists msg,
            truthy msg = true /\
            h = mkHandled (mkHttp 502 [] (JsonBody false (Some msg))) None /\
            (forall e, error r = Some e -> truthy e = true -> msg = e)
    | Threw err =>
        err = uri_malformed /\
        lone_surrogate (trim " R1 ") = true /\
        h = mkHandled
              (mkHttp 500 [] (JsonBody false (Some "internal server error")))
              (Some uri_malformed)
    | OutOfFuel => False
    end.
Proof.
  intros env.
  apply (roll_request_answer_follows_the_result default_config env
           send_text_only 6 " R1 " initial_world);
    [vm_compute; discriminate | cbn; lia | cbn; lia].
Defined.
